(** * The 8254 timer core of pintos-kaist (devices/timer.c)

    A shallow embedding of [devices/timer.c]: the tick counter, the wake
    watermark [global_tick], the calibration of [loops_per_tick] and the
    sleep entry points, with the properties of the timer specification
    stated and proved over it.

    Machine model: x86-64.  [int64_t] values are integers of [Z] kept in
    [-2^63, 2^63) by [wrap64] (two's complement wrap-around of [add] and
    [imul]); [unsigned] values are kept in [0, 2^32) by [wrap_u32];
    [idiv] truncates toward zero and raises a divide error on a zero
    divisor and on [INT64_MIN / -1]. *)

From Stdlib Require Import ZArith List Bool Lia.
Import ListNotations.
Local Open Scope Z_scope.

(** ** Machine integers *)

Definition INT64_MAX : Z := 2 ^ 63 - 1.
Definition INT64_MIN : Z := - 2 ^ 63.

Definition wrap64 (z : Z) : Z := (z + 2 ^ 63) mod 2 ^ 64 - 2 ^ 63.
Definition wrap_u32 (z : Z) : Z := z mod 2 ^ 32.
Definition wrap_u16 (z : Z) : Z := z mod 2 ^ 16.

Definition in_int64 (z : Z) : Prop := INT64_MIN <= z <= INT64_MAX.

(** [a / b] on [int64_t]: [None] is the processor's divide error. *)
Definition div64 (a b : Z) : option Z :=
  if b =? 0 then None
  else if (a =? INT64_MIN) && (b =? -1) then None
  else Some (Z.quot a b).

(** [#define MIN(a, b) ((a) < (b) ? (a) : (b))] *)
Definition MIN (a b : Z) : Z := if a <? b then a else b.

(** ** Timer state and observable calls *)

Inductive intr_level : Type := INTR_OFF | INTR_ON.

Definition intr_level_eqb (a b : intr_level) : bool :=
  match a, b with
  | INTR_OFF, INTR_OFF | INTR_ON, INTR_ON => true
  | _, _ => false
  end.

(** Calls that leave [timer.c] (port writes, scheduler and interrupt
    layer, console), the spin loop, and the accesses to the two variables
    shared with the interrupt handler. *)
Inductive event : Type :=
| EvOutb (port value : Z)
| EvIntrRegister (vec : Z)
| EvPrintf (args : list Z)
| EvThreadTick
| EvThreadSleep (deadline : Z)
| EvWakeUp (now : Z)
| EvBusyWait (loops : Z)
| EvLoadTicks (value : Z)
| EvStoreGlobalTick (value : Z).

(** The three statics of [timer.c], the interrupt flag, the scheduler's
    set of pending deadlines, and the log of calls, each stamped with the
    interrupt level at which it was made. *)
Record state : Type := mkState {
  ticks : Z;
  global_tick : Z;
  loops_per_tick : Z;
  level : intr_level;
  sleepers : list Z;
  trace : list (intr_level * event)
}.

(** [static int64_t ticks;  static int64_t global_tick = INT64_MAX;
    static unsigned loops_per_tick;]  The kernel boots with interrupts
    off. *)
Definition boot : state :=
  mkState 0 INT64_MAX 0 INTR_OFF [] [].

Definition set_ticks (v : Z) (st : state) : state :=
  mkState v (global_tick st) (loops_per_tick st) (level st) (sleepers st) (trace st).
Definition set_global_tick (v : Z) (st : state) : state :=
  mkState (ticks st) v (loops_per_tick st) (level st) (sleepers st) (trace st).
Definition set_loops_per_tick (v : Z) (st : state) : state :=
  mkState (ticks st) (global_tick st) v (level st) (sleepers st) (trace st).
Definition set_level (l : intr_level) (st : state) : state :=
  mkState (ticks st) (global_tick st) (loops_per_tick st) l (sleepers st) (trace st).
Definition set_sleepers (q : list Z) (st : state) : state :=
  mkState (ticks st) (global_tick st) (loops_per_tick st) (level st) q (trace st).
Definition emit (e : event) (st : state) : state :=
  mkState (ticks st) (global_tick st) (loops_per_tick st) (level st) (sleepers st)
          (trace st ++ [(level st, e)]).

(** ** Outcomes *)

Inductive assertion : Type :=
| AssertIntrOn          (* ASSERT (intr_get_level () == INTR_ON) *)
| AssertLoopsNonzero    (* ASSERT (loops_per_tick != 0) *)
| AssertDenom1000.      (* ASSERT (denom % 1000 == 0) *)

(** A call returns, halts the kernel on a failed [ASSERT], traps on a
    divide error, spins forever, or exhausts the fuel of a loop. *)
Inductive outcome (A : Type) : Type :=
| Ok (a : A) (st : state)
| Halt (why : assertion) (st : state)
| Fault (st : state)
| Hang (st : state)
| OutOfFuel.
Arguments Ok {A} a st.
Arguments Halt {A} why st.
Arguments Fault {A} st.
Arguments Hang {A} st.
Arguments OutOfFuel {A}.

Definition M (A : Type) : Type := state -> outcome A.

Definition ret {A} (a : A) : M A := fun st => Ok a st.

Definition bind {A B} (m : M A) (k : A -> M B) : M B :=
  fun st =>
    match m st with
    | Ok a st' => k a st'
    | Halt w st' => Halt w st'
    | Fault st' => Fault st'
    | Hang st' => Hang st'
    | OutOfFuel => OutOfFuel
    end.

Notation "x <- m ;; k" := (bind m (fun x => k))
  (at level 61, m at next level, right associativity).
Notation "m ;;; k" := (bind m (fun _ => k))
  (at level 61, right associativity).

Definition get {A} (f : state -> A) : M A := fun st => Ok (f st) st.
Definition modify (f : state -> state) : M unit := fun st => Ok tt (f st).
Definition ASSERT (why : assertion) (b : bool) : M unit :=
  fun st => if b then Ok tt st else Halt why st.
Definition idiv (a b : Z) : M Z :=
  fun st => match div64 a b with Some q => Ok q st | None => Fault st end.

(** ** threads/interrupt.h *)

Definition intr_get_level : M intr_level := get level.
Definition intr_disable : M intr_level :=
  old <- get level ;; modify (set_level INTR_OFF) ;;; ret old.
Definition intr_set_level (l : intr_level) : M unit := modify (set_level l).

Section Timer.

(** [TIMER_FREQ] is a macro of devices/timer.h. *)
Variable TIMER_FREQ : Z.

(** Hardware speed: the number of timer interrupts the 8254 raises while
    [busy_wait (loops)] spins with interrupts enabled. *)
Variable ticks_during : Z -> nat.

(** The scheduler's wake-sweep on its own queue: [wake_sweep now q] is the
    queue left after [wake_up (now)]. *)
Variable wake_sweep : Z -> list Z -> list Z.

(** ** threads/thread.h: the scheduler calls the timer makes *)

Definition thread_tick : M unit := modify (emit EvThreadTick).

Definition thread_sleep (deadline : Z) : M unit :=
  modify (emit (EvThreadSleep deadline)) ;;;
  modify (fun st => set_sleepers (sleepers st ++ [deadline]) st).

Definition wake_up (now : Z) : M unit :=
  modify (emit (EvWakeUp now)) ;;;
  modify (fun st => set_sleepers (wake_sweep now (sleepers st)) st).

(** ** timer.c *)

(** [timer_init]: the divisor and the three port writes. *)
Definition timer_count : Z :=
  wrap_u16 (Z.quot (1193180 + Z.quot TIMER_FREQ 2) TIMER_FREQ).

Definition timer_init : M unit :=
  let count := timer_count in
  modify (emit (EvOutb 0x43 0x34)) ;;;
  modify (emit (EvOutb 0x40 (Z.land count 0xff))) ;;;
  modify (emit (EvOutb 0x40 (Z.shiftr count 8))) ;;;
  modify (emit (EvIntrRegister 0x20)).

(** [timer_interrupt]: the handler body. *)
Definition timer_interrupt : M unit :=
  modify (fun st => set_ticks (wrap64 (ticks st + 1)) st) ;;;
  thread_tick ;;;
  g <- get global_tick ;;
  t <- get ticks ;;
  if g <? t then wake_up t else ret tt.

(** One delivered interrupt: the dispatcher runs the handler with
    interrupts masked and returns to the interrupted level. *)
Definition intr_deliver : M unit :=
  old <- intr_disable ;;
  timer_interrupt ;;;
  intr_set_level old.

Fixpoint intr_deliver_n (n : nat) : M unit :=
  match n with
  | O => ret tt
  | S n' => intr_deliver ;;; intr_deliver_n n'
  end.

(** [busy_wait]: the loop itself only passes time; with interrupts on the
    timer fires [ticks_during loops] times meanwhile. *)
Definition busy_wait (loops : Z) : M unit :=
  modify (emit (EvBusyWait loops)) ;;;
  l <- intr_get_level ;;
  match l with
  | INTR_ON => intr_deliver_n (ticks_during loops)
  | INTR_OFF => ret tt
  end.

(** [too_many_loops]: [while (ticks == start) barrier ();] ends at the
    next interrupt, and never with interrupts masked. *)
Definition too_many_loops (loops : Z) : M bool :=
  l <- intr_get_level ;;
  match l with
  | INTR_OFF => Hang
  | INTR_ON =>
      intr_deliver ;;;
      start <- get ticks ;;
      busy_wait loops ;;;
      now <- get ticks ;;
      ret (negb (start =? now))
  end.

(** [while (!too_many_loops (loops_per_tick << 1)) { ... }] *)
Fixpoint calibrate_coarse (fuel : nat) : M unit :=
  match fuel with
  | O => fun _ => OutOfFuel
  | S fuel' =>
      lpt <- get loops_per_tick ;;
      b <- too_many_loops (wrap_u32 (Z.shiftl lpt 1)) ;;
      if b then ret tt
      else
        modify (fun st => set_loops_per_tick (wrap_u32 (Z.shiftl (loops_per_tick st) 1)) st) ;;;
        lpt' <- get loops_per_tick ;;
        ASSERT AssertLoopsNonzero (negb (lpt' =? 0)) ;;;
        calibrate_coarse fuel'
  end.

(** [for (test_bit = high_bit >> 1; test_bit != high_bit >> 10;
         test_bit >>= 1) ...] entered with the current [test_bit]. *)
Fixpoint calibrate_refine (fuel : nat) (high_bit test_bit : Z) : M unit :=
  match fuel with
  | O => fun _ => OutOfFuel
  | S fuel' =>
      if test_bit =? Z.shiftr high_bit 10 then ret tt
      else
        b <- too_many_loops (Z.lor high_bit test_bit) ;;
        (if negb b
         then modify (fun st => set_loops_per_tick (Z.lor (loops_per_tick st) test_bit) st)
         else ret tt) ;;;
        calibrate_refine fuel' high_bit (Z.shiftr test_bit 1)
  end.

(** An [unsigned] holds 32 bits, which bounds both loops. *)
Definition calibrate_fuel : nat := 33.

Definition timer_calibrate : M unit :=
  l <- intr_get_level ;;
  ASSERT AssertIntrOn (intr_level_eqb l INTR_ON) ;;;
  modify (emit (EvPrintf [])) ;;;
  modify (set_loops_per_tick (Z.shiftl 1 10)) ;;;
  calibrate_coarse calibrate_fuel ;;;
  high_bit <- get loops_per_tick ;;
  calibrate_refine calibrate_fuel high_bit (Z.shiftr high_bit 1) ;;;
  lpt <- get loops_per_tick ;;
  modify (emit (EvPrintf [lpt * TIMER_FREQ])).

Definition timer_ticks : M Z :=
  old_level <- intr_disable ;;
  t <- get ticks ;;
  modify (emit (EvLoadTicks t)) ;;;
  intr_set_level old_level ;;;
  ret t.

Definition timer_elapsed (then_ : Z) : M Z :=
  t <- timer_ticks ;;
  ret (wrap64 (t - then_)).

Definition timer_sleep (t : Z) : M unit :=
  old_level <- intr_disable ;;
  start <- timer_ticks ;;
  g <- get global_tick ;;
  modify (set_global_tick (MIN g (wrap64 (start + t)))) ;;;
  modify (emit (EvStoreGlobalTick (MIN g (wrap64 (start + t))))) ;;;
  thread_sleep (wrap64 (start + t)) ;;;
  intr_set_level old_level.

(** The spin count of the sub-tick branch, as C parses
    [loops_per_tick * num / 1000 * TIMER_FREQ / (denom / 1000)]. *)
Definition spin_count (lpt num denom : Z) : M Z :=
  a <- idiv (wrap64 (lpt * num)) 1000 ;;
  d <- idiv denom 1000 ;;
  idiv (wrap64 (a * TIMER_FREQ)) d.

Definition real_time_sleep (num denom : Z) : M unit :=
  t <- idiv (wrap64 (num * TIMER_FREQ)) denom ;;
  l <- intr_get_level ;;
  ASSERT AssertIntrOn (intr_level_eqb l INTR_ON) ;;;
  if t >? 0 then timer_sleep t
  else
    ASSERT AssertDenom1000 (Z.rem denom 1000 =? 0) ;;;
    lpt <- get loops_per_tick ;;
    n <- spin_count lpt num denom ;;
    busy_wait n.

Definition timer_msleep (ms : Z) : M unit := real_time_sleep ms 1000.
Definition timer_usleep (us : Z) : M unit := real_time_sleep us (1000 * 1000).
Definition timer_nsleep (ns : Z) : M unit := real_time_sleep ns (1000 * 1000 * 1000).

Definition timer_print_stats : M unit :=
  t <- timer_ticks ;;
  modify (emit (EvPrintf [t])).

End Timer.

(** ** Reading the log *)

Definition is_thread_tick (e : intr_level * event) : bool :=
  match snd e with EvThreadTick => true | _ => false end.

(** Number of timer interrupts delivered so far: the handler calls
    [thread_tick] once per interrupt and nothing else calls it. *)
Definition delivered (st : state) : nat :=
  length (filter is_thread_tick (trace st)).

Fixpoint wake_calls (tr : list (intr_level * event)) : list Z :=
  match tr with
  | [] => []
  | (_, EvWakeUp now) :: tr' => now :: wake_calls tr'
  | _ :: tr' => wake_calls tr'
  end.

Fixpoint sleep_calls (tr : list (intr_level * event)) : list Z :=
  match tr with
  | [] => []
  | (_, EvThreadSleep d) :: tr' => d :: sleep_calls tr'
  | _ :: tr' => sleep_calls tr'
  end.

Fixpoint busy_waits (tr : list (intr_level * event)) : list Z :=
  match tr with
  | [] => []
  | (_, EvBusyWait n) :: tr' => n :: busy_waits tr'
  | _ :: tr' => busy_waits tr'
  end.

(** The smallest of a sentinel and a list of deadlines. *)
Definition min_deadline (sentinel : Z) (ds : list Z) : Z :=
  fold_left Z.min ds sentinel.

(** [z; z+1; ...] of length [n]. *)
Fixpoint Zseq (z : Z) (n : nat) : list Z :=
  match n with
  | O => []
  | S n' => z :: Zseq (z + 1) n'
  end.

(** ** Sequences of operations on the timer *)

Inductive op : Type :=
| OpInit
| OpIntrEnable
| OpIntrDisable
| OpInterrupt
| OpCalibrate
| OpTicks
| OpElapsed (then_ : Z)
| OpSleep (t : Z)
| OpMsleep (ms : Z)
| OpUsleep (us : Z)
| OpNsleep (ns : Z)
| OpPrintStats.

Section Run.

Variable TIMER_FREQ : Z.
Variable ticks_during : Z -> nat.
Variable wake_sweep : Z -> list Z -> list Z.

(** The state the handler leaves: [timer_interrupt] in closed form. *)
Definition after_interrupt (st : state) : state :=
  let t := wrap64 (ticks st + 1) in
  if global_tick st <? t
  then mkState t (global_tick st) (loops_per_tick st) (level st)
         (wake_sweep t (sleepers st))
         (trace st ++ [(level st, EvThreadTick); (level st, EvWakeUp t)])
  else mkState t (global_tick st) (loops_per_tick st) (level st)
         (sleepers st)
         (trace st ++ [(level st, EvThreadTick)]).

(** The 8254 raises its interrupt; it is delivered unless masked. *)
Definition hw_interrupt : M unit :=
  l <- intr_get_level ;;
  match l with
  | INTR_ON => intr_deliver wake_sweep
  | INTR_OFF => ret tt
  end.

Definition exec (o : op) : M unit :=
  match o with
  | OpInit => timer_init TIMER_FREQ
  | OpIntrEnable => intr_set_level INTR_ON
  | OpIntrDisable => intr_set_level INTR_OFF
  | OpInterrupt => hw_interrupt
  | OpCalibrate => timer_calibrate TIMER_FREQ ticks_during wake_sweep
  | OpTicks => timer_ticks ;;; ret tt
  | OpElapsed then_ => timer_elapsed then_ ;;; ret tt
  | OpSleep t => timer_sleep t
  | OpMsleep ms => timer_msleep TIMER_FREQ ticks_during wake_sweep ms
  | OpUsleep us => timer_usleep TIMER_FREQ ticks_during wake_sweep us
  | OpNsleep ns => timer_nsleep TIMER_FREQ ticks_during wake_sweep ns
  | OpPrintStats => timer_print_stats
  end.

Fixpoint run (ops : list op) : M unit :=
  match ops with
  | [] => ret tt
  | o :: ops' => exec o ;;; run ops'
  end.

End Run.

(** The subject of the end-to-end scenario: a 100 Hz clock on a machine
    that spins 1600 loops per tick, with a scheduler that resumes every
    thread whose deadline has passed. *)
Definition sweep_due (now : Z) (q : list Z) : list Z :=
  filter (fun d => now <? d) q.

Definition spins_1600 (loops : Z) : nat :=
  if loops <=? 1600 then O else 1%nat.

(** Whether the handler, entered in [st], calls [wake_up]. *)
Definition calls_wake_up (wake_sweep : Z -> list Z -> list Z) (st : state) : bool :=
  match timer_interrupt wake_sweep st with
  | Ok _ st' =>
      negb (length (wake_calls (trace st')) =? length (wake_calls (trace st)))%nat
  | _ => false
  end.

(** The 8254 input frequency divided by [freq], rounded to the nearest
    integer with ties rounded up: [floor (1193180 / freq + 1/2)]. *)
Definition nearest_count (freq : Z) : Z := (2 * 1193180 + freq) / (2 * freq).

(** A bounded check of [check] on [z, z + n). *)
Fixpoint all_from (check : Z -> bool) (z : Z) (n : nat) : bool :=
  match n with
  | O => true
  | S n' => check z && all_from check (z + 1) n'
  end.

(** The checks of the divisor at one frequency. *)
Definition count_ok (freq : Z) : bool :=
  let c := timer_count freq in
  (c =? Z.quot (1193180 + Z.quot freq 2) freq)
  && (c =? nearest_count freq)
  && (c <=? 65535)
  && (0 <=? c).

(** The end-to-end scenario: interrupts on, 250 ticks, [timer_sleep (50)],
    then [n] more ticks. *)
Definition e2e_ops (n : nat) : list op :=
  OpIntrEnable :: repeat OpInterrupt 250 ++ OpSleep 50 :: repeat OpInterrupt n.

Definition e2e (n : nat) : outcome unit :=
  run 100 spins_1600 sweep_due (e2e_ops n) boot.

(** What the invariants of the timer depend on: the counter, the
    watermark, the scheduler's queue, the interrupts delivered and the
    deadlines handed to [thread_sleep]. *)
Definition view (st : state) : Z * Z * list Z * nat * list Z :=
  (ticks st, global_tick st, sleepers st, delivered st, sleep_calls (trace st)).

(** [P] holds of the state an outcome carries. *)
Definition okish (P : state -> Prop) {A} (o : outcome A) : Prop :=
  match o with
  | Ok _ st' | Halt _ st' | Fault st' | Hang st' => P st'
  | OutOfFuel => True
  end.

Definition preserves (P : state -> Prop) {A} (m : M A) : Prop :=
  forall st, P st -> okish P (m st).

(** The counter is the 64-bit image of the interrupts delivered. *)
Definition counts_interrupts (st : state) : Prop :=
  ticks st = wrap64 (Z.of_nat (delivered st)).

(** At least [d0] interrupts have been delivered. *)
Definition delivered_from (d0 : nat) (st : state) : Prop :=
  (d0 <= delivered st)%nat.

(** The watermark is the smallest of INT64_MAX and every deadline handed
    to [thread_sleep], and the scheduler holds only such deadlines. *)
Definition watermark_is_min (st : state) : Prop :=
  global_tick st = min_deadline INT64_MAX (sleep_calls (trace st)) /\
  (forall d, In d (sleepers st) -> In d (sleep_calls (trace st))).

(** Whether [too_many_loops (loops)] sees the counter change: the ticks
    raised during the spin are not a multiple of 2^64. *)
Definition too_long (ticks_during : Z -> nat) (loops : Z) : bool :=
  negb (Z.of_nat (ticks_during loops) mod 2 ^ 64 =? 0).

(** The spin count in the grouping the specification words:
    LoopsPerTick * (num / 1000) * TIMER_FREQ / (denom / 1000). *)
Definition spec_spin_count (TIMER_FREQ lpt num denom : Z) : Z :=
  Z.quot (lpt * Z.quot num 1000 * TIMER_FREQ) (Z.quot denom 1000).

(** The spin count of the source, on integers that do not overflow. *)
Definition code_spin_count (TIMER_FREQ lpt num denom : Z) : Z :=
  Z.quot (Z.quot (lpt * num) 1000 * TIMER_FREQ) (Z.quot denom 1000).

(** The tick count [real_time_sleep] computes from [num / denom] seconds. *)
Definition sleep_ticks (TIMER_FREQ num denom : Z) : Z :=
  Z.quot (wrap64 (num * TIMER_FREQ)) denom.

(** The 64-bit value [real_time_sleep] passes to [busy_wait]. *)
Definition spin_loops (TIMER_FREQ lpt num denom : Z) : Z :=
  Z.quot (wrap64 (Z.quot (wrap64 (lpt * num)) 1000 * TIMER_FREQ))
         (Z.quot denom 1000).

(** [b; b >> 1; ...]: the [m] successive values of [test_bit]. *)
Fixpoint halvings (b : Z) (m : nat) : list Z :=
  match m with
  | O => []
  | S m' => b :: halvings (Z.shiftr b 1) m'
  end.

(** The bit positions the refinement loop of [timer_calibrate] visits for
    the high bit [h]: [h >> 1] down to [h >> 9]. *)
Definition test_bits (h : Z) : list Z := halvings (Z.shiftr h 1) 9.

(** The loop condition [test_bit != high_bit >> 10] holds for the first
    [m] values of [test_bit] from [b] on and fails for the next one. *)
Fixpoint stops_after (h b : Z) (m : nat) : bool :=
  match m with
  | O => b =? Z.shiftr h 10
  | S m' => negb (b =? Z.shiftr h 10) && stops_after h (Z.shiftr b 1) m'
  end.

(** The bits the source loop accumulates: [b] is kept when
    [too_many_loops (h | b)] is false. *)
Definition refine_acc (ticks_during : Z -> nat) (h acc : Z) (bits : list Z) : Z :=
  fold_left
    (fun a b => if too_long ticks_during (Z.lor h b) then a else Z.lor a b)
    bits acc.

(** The refinement as the specification words it: every bit from
    [h >> 1] down to [h >> 10] inclusive is tried on top of the bits
    accepted so far. *)
Definition spec_refine (ticks_during : Z -> nat) (h : Z) : Z :=
  fold_left
    (fun a b => if too_long ticks_during (Z.lor a b) then a else Z.lor a b)
    (halvings (Z.shiftr h 1) 10) h.

(** The two data bytes [timer_init] writes to port 0x40 for one frequency:
    both are bytes and, LSB then MSB, they spell the rounded divisor. *)
Definition divisor_bytes_ok (freq : Z) : bool :=
  let c := timer_count freq in
  let lo := Z.land c 0xff in
  let hi := Z.shiftr c 8 in
  (0 <=? lo) && (lo <=? 255) && (0 <=? hi) && (hi <=? 255)
  && (hi * 256 + lo =? nearest_count freq).

(** Operations that write [loops_per_tick] / that set the interrupt level
    on purpose. *)
Definition is_calibrate (o : op) : bool :=
  match o with OpCalibrate => true | _ => false end.

Definition sets_level (o : op) : bool :=
  match o with OpIntrEnable | OpIntrDisable => true | _ => false end.

(** Relative to a state with watermark [g0] and [n0] registrations: the
    watermark has not been raised, and has not moved at all unless
    [thread_sleep] has been called since. *)
Definition watermark_lowered_by_sleeps (g0 : Z) (n0 : nat) (st : state) : Prop :=
  global_tick st <= g0 /\
  (n0 <= length (sleep_calls (trace st)))%nat /\
  (length (sleep_calls (trace st)) = n0 -> global_tick st = g0).

(** From [st] to [st'] the caller waited in exactly one way: one sleep
    was registered and nothing spun, or one spin was made, nothing was
    registered and the watermark stayed. *)
Definition one_wait (st st' : state) : Prop :=
  (exists d, sleep_calls (trace st') = sleep_calls (trace st) ++ [d] /\
             busy_waits (trace st') = busy_waits (trace st)) \/
  (exists n, busy_waits (trace st') = busy_waits (trace st) ++ [n] /\
             sleep_calls (trace st') = sleep_calls (trace st) /\
             global_tick st' = global_tick st).

(** [2^j << 1] as an [unsigned]: the count the doubling loop of
    [timer_calibrate] probes when [loops_per_tick] is [2^j]. *)
Definition doubled (j : Z) : Z := wrap_u32 (Z.shiftl (2 ^ j) 1).

(** [k] is the first exponent from 10 on whose doubled count is too long
    for a tick. *)
Definition first_too_long (ticks_during : Z -> nat) (k : Z) : Prop :=
  too_long ticks_during (doubled k) = true /\
  forall j, 10 <= j < k -> too_long ticks_during (doubled j) = false.


(** ** Machine integer facts *)

Lemma wrap64_range z : in_int64 (wrap64 z).
Proof.
  unfold in_int64, wrap64, INT64_MIN, INT64_MAX.
  pose proof (Z.mod_pos_bound (z + 2 ^ 63) (2 ^ 64) ltac:(lia)). lia.
Qed.

Lemma wrap64_id z : in_int64 z -> wrap64 z = z.
Proof.
  unfold in_int64, wrap64, INT64_MIN, INT64_MAX. intros H.
  rewrite Z.mod_small; lia.
Qed.

Lemma wrap64_add_wrap a b : wrap64 (wrap64 a + b) = wrap64 (a + b).
Proof.
  unfold wrap64.
  replace ((a + 2 ^ 63) mod 2 ^ 64 - 2 ^ 63 + b + 2 ^ 63)
    with ((a + 2 ^ 63) mod 2 ^ 64 + b) by lia.
  rewrite Zplus_mod_idemp_l. f_equal. f_equal. lia.
Qed.

Lemma MIN_min a b : MIN a b = Z.min a b.
Proof. unfold MIN. destruct (Z.ltb_spec a b); lia. Qed.

(** ** Monad equations *)

Ltac splits := repeat match goal with |- _ /\ _ => split end.

Lemma bind_Ok {A B} (m : M A) (k : A -> M B) st a st' :
  m st = Ok a st' -> bind m k st = k a st'.
Proof. unfold bind. now intros ->. Qed.

Lemma app_cons_assoc {A} (l : list A) x l' : (l ++ [x]) ++ l' = l ++ x :: l'.
Proof. now rewrite <- app_assoc. Qed.

(** ** What each routine returns *)

Section TimerFacts.

Variable TIMER_FREQ : Z.
Variable ticks_during : Z -> nat.
Variable wake_sweep : Z -> list Z -> list Z.

Lemma timer_ticks_eq st :
  timer_ticks st =
  Ok (ticks st)
     (mkState (ticks st) (global_tick st) (loops_per_tick st) (level st)
        (sleepers st) (trace st ++ [(INTR_OFF, EvLoadTicks (ticks st))])).
Proof. reflexivity. Qed.

Lemma timer_sleep_eq t st :
  timer_sleep t st =
  let d := wrap64 (ticks st + t) in
  let g := MIN (global_tick st) d in
  Ok tt
     (mkState (ticks st) g (loops_per_tick st) (level st)
        (sleepers st ++ [d])
        (trace st ++ [(INTR_OFF, EvLoadTicks (ticks st));
                      (INTR_OFF, EvStoreGlobalTick g);
                      (INTR_OFF, EvThreadSleep d)])).
Proof.
  cbv [timer_sleep timer_ticks thread_sleep intr_disable intr_set_level bind
       get modify ret emit set_level set_global_tick set_sleepers
       ticks global_tick loops_per_tick level sleepers trace].
  cbv zeta. now rewrite !app_cons_assoc.
Qed.

Lemma timer_interrupt_eq st :
  timer_interrupt wake_sweep st = Ok tt (after_interrupt wake_sweep st).
Proof.
  cbv [timer_interrupt thread_tick wake_up bind get modify ret emit set_ticks
       set_sleepers after_interrupt
       ticks global_tick loops_per_tick level sleepers trace].
  destruct st as [t g l lv q tr]; cbv beta iota.
  destruct (g <? wrap64 (t + 1)); cbv beta iota; now rewrite ?app_cons_assoc.
Qed.

Lemma intr_deliver_eq st :
  intr_deliver wake_sweep st =
  Ok tt (set_level (level st) (after_interrupt wake_sweep (set_level INTR_OFF st))).
Proof.
  unfold intr_deliver, intr_disable.
  cbv [bind get modify ret intr_set_level].
  now rewrite timer_interrupt_eq.
Qed.

End TimerFacts.

(** ** Log lemmas *)

Lemma wake_calls_app tr1 tr2 :
  wake_calls (tr1 ++ tr2) = wake_calls tr1 ++ wake_calls tr2.
Proof.
  induction tr1 as [|[l e] tr1 IH]; simpl; [reflexivity|].
  destruct e; simpl; now rewrite ?IH.
Qed.

Lemma sleep_calls_app tr1 tr2 :
  sleep_calls (tr1 ++ tr2) = sleep_calls tr1 ++ sleep_calls tr2.
Proof.
  induction tr1 as [|[l e] tr1 IH]; simpl; [reflexivity|].
  destruct e; simpl; now rewrite ?IH.
Qed.

Lemma busy_waits_app tr1 tr2 :
  busy_waits (tr1 ++ tr2) = busy_waits tr1 ++ busy_waits tr2.
Proof.
  induction tr1 as [|[l e] tr1 IH]; simpl; [reflexivity|].
  destruct e; simpl; now rewrite ?IH.
Qed.

(** ** The timer divisor (C9) *)

Lemma all_from_spec check n : forall z x,
  all_from check z n = true -> z <= x < z + Z.of_nat n -> check x = true.
Proof.
  induction n as [|n IH]; intros z x H Hx; [lia|].
  simpl in H. apply andb_true_iff in H as [H0 H1].
  destruct (Z.eq_dec x z) as [->|Hne]; [assumption|].
  apply (IH (z + 1)); [assumption|lia].
Qed.

(** C9: for every TIMER_FREQ the build accepts, 19 <= TIMER_FREQ <= 1000,
    the value stored in [uint16_t count] by [timer_init] is the untruncated
    quotient (1193180 + TIMER_FREQ / 2) / TIMER_FREQ, it is the integer
    nearest to 1193180 / TIMER_FREQ with ties rounded up (both as
    floor (1193180 / TIMER_FREQ + 1/2) and as the c with
    -TIMER_FREQ <= 2 * (1193180 - c * TIMER_FREQ) < TIMER_FREQ), and it
    lies in the range of a uint16_t. *)
Theorem timer_init_count_nearest (freq : Z) :
  19 <= freq <= 1000 ->
  let c := timer_count freq in
  c = Z.quot (1193180 + Z.quot freq 2) freq /\
  c = nearest_count freq /\
  - freq <= 2 * (1193180 - c * freq) < freq /\
  0 <= c <= 65535.
Proof.
  intros Hf c.
  assert (Hc : count_ok freq = true).
  { apply (all_from_spec count_ok 982 19); [now vm_compute | lia]. }
  unfold count_ok in Hc. fold c in Hc.
  rewrite !andb_true_iff in Hc. destruct Hc as [[[H1 H2] H3] H4].
  apply Z.eqb_eq in H1, H2. apply Z.leb_le in H3, H4.
  repeat split; try assumption; try lia.
  - rewrite H2. unfold nearest_count.
    pose proof (Z.mul_div_le (2 * 1193180 + freq) (2 * freq) ltac:(lia)). lia.
  - rewrite H2. unfold nearest_count.
    pose proof (Z.mul_succ_div_gt (2 * 1193180 + freq) (2 * freq) ltac:(lia)). lia.
Qed.

Lemma timer_init_count_nearest_witness :
  19 <= 100 <= 1000 /\ timer_count 100 = 11932 /\ nearest_count 100 = 11932.
Proof.
  split; [lia|].
  destruct (timer_init_count_nearest 100 ltac:(lia)) as (_ & H & _).
  split; [reflexivity | now rewrite <- H].
Defined.

(** ** Sleep registration (C5, C10) *)

(** What a registration leaves behind, for the invariants below. *)
Lemma timer_sleep_returns (t : Z) (st : state) :
  exists st',
    timer_sleep t st = Ok tt st' /\
    ticks st' = ticks st /\
    delivered st' = delivered st /\
    global_tick st' = Z.min (global_tick st) (wrap64 (ticks st + t)) /\
    sleep_calls (trace st') = sleep_calls (trace st) ++ [wrap64 (ticks st + t)] /\
    busy_waits (trace st') = busy_waits (trace st) /\
    sleepers st' = sleepers st ++ [wrap64 (ticks st + t)] /\
    level st' = level st.
Proof.
  rewrite timer_sleep_eq. cbv zeta. rewrite MIN_min.
  eexists; split; [reflexivity|].
  unfold delivered. cbn [ticks global_tick sleepers level trace].
  rewrite sleep_calls_app, busy_waits_app, filter_app, length_app. cbn.
  rewrite app_nil_r, Nat.add_0_r. splits; reflexivity.
Qed.

(** C5: for every tick count t, [timer_sleep (t)] returns, and between
    masking interrupts and restoring the level it had at entry it reads
    the tick counter [start], lowers [global_tick] to
    min (global_tick, start + t) and hands start + t to [thread_sleep]:
    the three accesses are logged at INTR_OFF, in that order, the
    scheduler's queue gains the deadline, the final interrupt level is the
    level at entry (not unconditionally on), and the tick counter and
    [loops_per_tick] are untouched.  start + t is the 64-bit sum, equal to
    the integer sum whenever that fits. *)
Theorem timer_sleep_registers (t : Z) (st : state) :
  exists st',
    timer_sleep t st = Ok tt st' /\
    let start := ticks st in
    let d := wrap64 (start + t) in
    (in_int64 (start + t) -> d = start + t) /\
    global_tick st' = Z.min (global_tick st) d /\
    sleepers st' = sleepers st ++ [d] /\
    trace st' = trace st ++ [(INTR_OFF, EvLoadTicks start);
                             (INTR_OFF, EvStoreGlobalTick (Z.min (global_tick st) d));
                             (INTR_OFF, EvThreadSleep d)] /\
    level st' = level st /\
    ticks st' = ticks st /\
    loops_per_tick st' = loops_per_tick st.
Proof.
  rewrite timer_sleep_eq. cbv zeta. rewrite MIN_min.
  eexists; split; [reflexivity|]. simpl.
  repeat split; auto using wrap64_id.
Qed.

(** C10: for every t <= 0 (an int64_t) and a tick counter in
    [0, INT64_MAX], [timer_sleep (t)] is not rejected or short-circuited:
    it returns after lowering [global_tick] to min (global_tick, now + t),
    a value at or before the current tick, and after handing the deadline
    now + t to [thread_sleep], whose queue gains it, exactly as the
    registration of a positive t does. *)
Theorem timer_sleep_nonpositive (t : Z) (st : state) :
  t <= 0 -> INT64_MIN <= t -> 0 <= ticks st <= INT64_MAX ->
  exists st',
    timer_sleep t st = Ok tt st' /\
    global_tick st' = Z.min (global_tick st) (ticks st + t) /\
    global_tick st' <= ticks st + t <= ticks st /\
    sleep_calls (trace st') = sleep_calls (trace st) ++ [ticks st + t] /\
    sleepers st' = sleepers st ++ [ticks st + t] /\
    level st' = level st.
Proof.
  intros Ht Hmin Hticks.
  destruct (timer_sleep_returns t st) as (st' & Heq & _ & _ & Hg & Hs & _ & Hq & Hl).
  exists st'. split; [assumption|].
  assert (Hr : in_int64 (ticks st + t)).
  { unfold in_int64, INT64_MIN, INT64_MAX in *. lia. }
  rewrite (wrap64_id _ Hr) in *.
  repeat split; try assumption; try lia.
Qed.

Lemma timer_sleep_nonpositive_witness :
  exists st',
    timer_sleep (-5) (set_ticks 250 boot) = Ok tt st' /\
    global_tick st' = 245 /\
    sleep_calls (trace st') = [245].
Proof.
  destruct (timer_sleep_nonpositive (-5) (set_ticks 250 boot))
    as (st' & H & Hg & _ & Hs & _).
  - lia.
  - now vm_compute.
  - now vm_compute.
  - exists st'. split; [exact H|]. split.
    + rewrite Hg. reflexivity.
    + rewrite Hs. reflexivity.
Defined.

(** ** The interrupt handler (C1) *)

Section Handler.

Variable wake_sweep : Z -> list Z -> list Z.

Lemma after_interrupt_fields st :
  let st' := after_interrupt wake_sweep st in
  ticks st' = wrap64 (ticks st + 1) /\
  global_tick st' = global_tick st /\
  loops_per_tick st' = loops_per_tick st /\
  level st' = level st /\
  delivered st' = S (delivered st) /\
  sleep_calls (trace st') = sleep_calls (trace st) /\
  busy_waits (trace st') = busy_waits (trace st) /\
  wake_calls (trace st') =
    wake_calls (trace st) ++
    (if global_tick st <? wrap64 (ticks st + 1) then [wrap64 (ticks st + 1)] else []) /\
  (forall d, In d (sleepers st') ->
     In d (sleepers st) \/ In d (wake_sweep (wrap64 (ticks st + 1)) (sleepers st))).
Proof.
  unfold after_interrupt, delivered.
  destruct (global_tick st <? wrap64 (ticks st + 1)); simpl;
    rewrite ?sleep_calls_app, ?busy_waits_app, ?wake_calls_app, ?filter_app,
            ?length_app; simpl;
    rewrite ?app_nil_r; repeat split; auto; lia.
Qed.

Lemma intr_deliver_fields st :
  exists st',
    intr_deliver wake_sweep st = Ok tt st' /\
    ticks st' = wrap64 (ticks st + 1) /\
    global_tick st' = global_tick st /\
    loops_per_tick st' = loops_per_tick st /\
    level st' = level st /\
    delivered st' = S (delivered st) /\
    sleep_calls (trace st') = sleep_calls (trace st) /\
    busy_waits (trace st') = busy_waits (trace st) /\
    wake_calls (trace st') =
      wake_calls (trace st) ++
      (if global_tick st <? wrap64 (ticks st + 1) then [wrap64 (ticks st + 1)] else []) /\
    (forall d, In d (sleepers st') ->
       In d (sleepers st) \/ In d (wake_sweep (wrap64 (ticks st + 1)) (sleepers st))).
Proof.
  rewrite intr_deliver_eq. eexists; split; [reflexivity|].
  pose proof (after_interrupt_fields (set_level INTR_OFF st)) as H.
  cbv zeta in H. destruct H as (Ht & Hg & Hl & _ & Hd & Hs & Hb & Hw & Hq).
  unfold delivered in *. cbn [set_level ticks global_tick loops_per_tick level
    sleepers trace] in *.
  repeat split; assumption.
Qed.

(** [n] interrupts in a row, away from the end of the int64_t range: the
    counter advances by [n], and [wake_up] is called at exactly the ticks
    above the watermark. *)
Lemma intr_deliver_n_fields n : forall st,
  in_int64 (ticks st) -> ticks st + Z.of_nat n <= INT64_MAX ->
  exists st',
    intr_deliver_n wake_sweep n st = Ok tt st' /\
    ticks st' = ticks st + Z.of_nat n /\
    global_tick st' = global_tick st /\
    loops_per_tick st' = loops_per_tick st /\
    level st' = level st /\
    wake_calls (trace st') =
      wake_calls (trace st) ++
      filter (fun t => global_tick st <? t) (Zseq (ticks st + 1) n).
Proof.
  induction n as [|n IH]; intros st Hr Hn.
  - exists st. simpl. rewrite app_nil_r. repeat split; auto; lia.
  - destruct (intr_deliver_fields st)
      as (st1 & H1 & Ht & Hg & Hl & Hlv & _ & _ & _ & Hw & _).
    assert (Ht' : ticks st1 = ticks st + 1).
    { rewrite Ht. apply wrap64_id. unfold in_int64, INT64_MIN, INT64_MAX in *. lia. }
    rewrite Ht' in Ht. rewrite <- Ht in Hw.
    destruct (IH st1) as (st2 & H2 & Ht2 & Hg2 & Hl2 & Hlv2 & Hw2).
    { rewrite Ht'. unfold in_int64, INT64_MIN, INT64_MAX in *. lia. }
    { lia. }
    exists st2. split.
    { cbn [intr_deliver_n]. now rewrite (bind_Ok _ _ _ _ _ H1). }
    repeat split; try congruence; try lia.
    rewrite Hw2, Hw, Hg, Ht'. cbn [Zseq filter].
    destruct (global_tick st <? ticks st + 1); now rewrite <- app_assoc.
Qed.

Lemma filter_Zseq_none g : forall n z,
  z + Z.of_nat n <= g + 1 -> filter (fun t => g <? t) (Zseq z n) = [].
Proof.
  induction n as [|n IH]; intros z H; [reflexivity|].
  cbn [Zseq filter]. destruct (Z.ltb_spec g z); [lia|]. apply IH. lia.
Qed.

Lemma filter_Zseq_last g : forall n z,
  z + Z.of_nat n = g + 1 ->
  filter (fun t => g <? t) (Zseq z (S n)) = [g + 1].
Proof.
  induction n as [|n IH]; intros z H.
  - cbn [Zseq filter]. destruct (Z.ltb_spec g z); [|lia]. f_equal. lia.
  - change (Zseq z (S (S n))) with (z :: Zseq (z + 1) (S n)). cbn [filter].
    destruct (Z.ltb_spec g z); [lia|]. apply IH. lia.
Qed.

(** C1, as the handler implements it: [timer_interrupt] always returns;
    it increments the counter (64-bit), leaves the watermark alone, and
    calls [wake_up] if and only if the watermark is strictly below the
    incremented counter (global_tick < ticks), passing that counter.
    Consequently, with watermark D and counter at most D (counter in range),
    no run of interrupts that takes the counter up to D calls [wake_up],
    not even the one that reaches D, and the run that takes it to D + 1
    calls [wake_up] exactly once, with D + 1: the sweep first fires at the
    first tick whose count exceeds D. *)
Theorem timer_interrupt_wake_gate (st : state) :
  (exists st',
     timer_interrupt wake_sweep st = Ok tt st' /\
     ticks st' = wrap64 (ticks st + 1) /\
     global_tick st' = global_tick st /\
     (calls_wake_up wake_sweep st = true <-> global_tick st < ticks st') /\
     wake_calls (trace st') =
       wake_calls (trace st) ++
       (if global_tick st <? ticks st' then [ticks st'] else [])) /\
  (forall n : nat,
     INT64_MIN <= ticks st <= global_tick st -> global_tick st < INT64_MAX ->
     (ticks st + Z.of_nat n <= global_tick st ->
      exists st',
        intr_deliver_n wake_sweep n st = Ok tt st' /\
        ticks st' = ticks st + Z.of_nat n /\
        wake_calls (trace st') = wake_calls (trace st)) /\
     (ticks st + Z.of_nat n = global_tick st + 1 ->
      exists st',
        intr_deliver_n wake_sweep n st = Ok tt st' /\
        ticks st' = global_tick st + 1 /\
        wake_calls (trace st') = wake_calls (trace st) ++ [global_tick st + 1])).
Proof.
  split.
  - pose proof (after_interrupt_fields st) as H. cbv zeta in H.
    destruct H as (Ht & Hg & _ & _ & _ & _ & _ & Hw & _).
    exists (after_interrupt wake_sweep st).
    split; [apply timer_interrupt_eq|].
    split; [exact Ht|]. split; [exact Hg|]. rewrite Ht. split; [|exact Hw].
    unfold calls_wake_up. rewrite timer_interrupt_eq, Hw, length_app.
    destruct (Z.ltb_spec (global_tick st) (wrap64 (ticks st + 1))); simpl.
    + rewrite Bool.negb_true_iff, Nat.eqb_neq. split; [auto | lia].
    + rewrite Nat.add_0_r, Nat.eqb_refl. simpl. split; [discriminate | lia].
  - intros n Hr Hg. split; intros Hn.
    + destruct (intr_deliver_n_fields n st) as (st' & H & Ht & _ & _ & _ & Hw).
      { unfold in_int64. lia. }
      { lia. }
      exists st'. split; [exact H|]. split; [exact Ht|].
      rewrite Hw, filter_Zseq_none, app_nil_r; [reflexivity | lia].
    + destruct (intr_deliver_n_fields n st) as (st' & H & Ht & _ & _ & _ & Hw).
      { unfold in_int64. lia. }
      { lia. }
      exists st'. split; [exact H|]. split; [lia|].
      rewrite Hw. destruct n as [|n]; [lia|].
      rewrite filter_Zseq_last; [reflexivity | lia].
Qed.

End Handler.

Lemma timer_interrupt_wake_gate_witness :
  exists st',
    intr_deliver_n sweep_due 51 (set_global_tick 300 (set_ticks 250 boot)) = Ok tt st' /\
    ticks st' = 301 /\
    wake_calls (trace st') = [301].
Proof.
  destruct (timer_interrupt_wake_gate sweep_due
              (set_global_tick 300 (set_ticks 250 boot))) as [_ H].
  destruct (H 51%nat) as [_ H1].
  - now vm_compute.
  - now vm_compute.
  - exact (H1 eq_refl).
Defined.

(** C1 as the specification words it fails on the scenario of the
    specification: 49 ticks after the registration at tick 250 the counter
    is 299 and the watermark 300; the next interrupt makes the counter
    300 >= 300 and does not call [wake_up], and after it no [wake_up] has
    been called at all. *)
Lemma wake_gate_misses_deadline_tick :
  exists st st',
    e2e 49 = Ok tt st /\ ticks st = 299 /\ global_tick st = 300 /\
    ~ (calls_wake_up sweep_due st = true <->
       global_tick st <= wrap64 (ticks st + 1)) /\
    e2e 50 = Ok tt st' /\ ticks st' = 300 /\ global_tick st' <= ticks st' /\
    wake_calls (trace st') = [].
Proof.
  eexists. eexists.
  split; [vm_compute; reflexivity|].
  split; [reflexivity|]. split; [reflexivity|].
  split.
  { intros [_ H]. assert (Hc : false = true) by (apply H; now vm_compute).
    discriminate Hc. }
  split; [vm_compute; reflexivity|].
  split; [reflexivity|]. split; [now vm_compute | reflexivity].
Qed.

(** ** Invariants of every run *)

Create HintDb timer.

Lemma okish_bind P {A B} (m : M A) (k : A -> M B) st :
  okish P (m st) -> (forall a, preserves P (k a)) -> okish P (bind m k st).
Proof.
  unfold bind. destruct (m st); simpl; auto. intros H Hk. now apply Hk.
Qed.

Lemma preserves_bind P {A B} (m : M A) (k : A -> M B) :
  preserves P m -> (forall a, preserves P (k a)) -> preserves P (bind m k).
Proof. intros Hm Hk st H. apply okish_bind; auto. Qed.

Lemma preserves_ret P {A} (a : A) : preserves P (ret a).
Proof. intros st H. exact H. Qed.

Lemma preserves_get P {A} (f : state -> A) : preserves P (get f).
Proof. intros st H. exact H. Qed.

Lemma preserves_ASSERT P why b : preserves P (ASSERT why b).
Proof. intros st H. unfold ASSERT. now destruct b. Qed.

Lemma preserves_idiv P a b : preserves P (idiv a b).
Proof. intros st H. unfold idiv. now destruct (div64 a b). Qed.

Lemma preserves_Hang P {A} : preserves P (@Hang A).
Proof. intros st H. exact H. Qed.

Lemma preserves_OutOfFuel P {A} : preserves P (fun _ => @OutOfFuel A).
Proof. intros st H. exact I. Qed.

Section Invariant.

Variable TIMER_FREQ : Z.
Variable ticks_during : Z -> nat.
Variable wake_sweep : Z -> list Z -> list Z.

(** A property of the view that the two routines writing the shared
    variables keep. *)
Variable P : state -> Prop.
Hypothesis P_view : forall st st', view st = view st' -> P st -> P st'.
Hypothesis P_interrupt : preserves P (intr_deliver wake_sweep).
Hypothesis P_sleep : forall t, preserves P (timer_sleep t).

Lemma preserves_modify f :
  (forall st, view st = view (f st)) -> preserves P (modify f).
Proof. intros Hf st H. simpl. now apply (P_view st). Qed.

Lemma view_set_level l st : view st = view (set_level l st).
Proof. reflexivity. Qed.

Lemma view_set_loops_per_tick v st : view st = view (set_loops_per_tick v st).
Proof. reflexivity. Qed.

Lemma view_emit e st :
  match e with EvThreadTick | EvThreadSleep _ => False | _ => True end ->
  view st = view (emit e st).
Proof.
  intros He. unfold view, emit, delivered. simpl.
  rewrite sleep_calls_app, filter_app, length_app.
  destruct e; simpl; try contradiction; now rewrite app_nil_r, Nat.add_0_r.
Qed.

#[local] Hint Resolve preserves_ret preserves_get preserves_ASSERT preserves_idiv
  preserves_Hang preserves_OutOfFuel P_interrupt P_sleep : timer.

Ltac preserve :=
  repeat first
    [ progress intros
    | solve [auto with timer]
    | apply preserves_bind
    | apply preserves_modify; intros;
      first [ apply view_set_level | apply view_set_loops_per_tick
            | apply view_emit; exact I ]
    | match goal with
      | |- preserves _ (match ?x with _ => _ end) => destruct x
      end ].

Lemma preserves_intr_set_level l : preserves P (intr_set_level l).
Proof. unfold intr_set_level. preserve. Qed.

#[local] Hint Resolve preserves_intr_set_level : timer.

Lemma preserves_intr_disable : preserves P intr_disable.
Proof. unfold intr_disable. preserve. Qed.

#[local] Hint Resolve preserves_intr_disable : timer.

Lemma preserves_intr_deliver_n n : preserves P (intr_deliver_n wake_sweep n).
Proof. induction n; cbn [intr_deliver_n]; preserve. Qed.

#[local] Hint Resolve preserves_intr_deliver_n : timer.

Lemma preserves_busy_wait loops :
  preserves P (busy_wait ticks_during wake_sweep loops).
Proof.
  unfold busy_wait, intr_get_level. preserve.
Qed.

#[local] Hint Resolve preserves_busy_wait : timer.

Lemma preserves_too_many_loops loops :
  preserves P (too_many_loops ticks_during wake_sweep loops).
Proof.
  unfold too_many_loops, intr_get_level. preserve.
Qed.

#[local] Hint Resolve preserves_too_many_loops : timer.

Lemma preserves_calibrate_coarse fuel :
  preserves P (calibrate_coarse ticks_during wake_sweep fuel).
Proof.
  induction fuel; cbn [calibrate_coarse]; preserve.
Qed.

#[local] Hint Resolve preserves_calibrate_coarse : timer.

Lemma preserves_calibrate_refine fuel : forall h b,
  preserves P (calibrate_refine ticks_during wake_sweep fuel h b).
Proof.
  induction fuel; cbn [calibrate_refine]; intros h b; preserve.
Qed.

#[local] Hint Resolve preserves_calibrate_refine : timer.

Lemma preserves_timer_calibrate :
  preserves P (timer_calibrate TIMER_FREQ ticks_during wake_sweep).
Proof.
  unfold timer_calibrate, intr_get_level. preserve.
Qed.

#[local] Hint Resolve preserves_timer_calibrate : timer.

Lemma preserves_timer_ticks : preserves P timer_ticks.
Proof.
  unfold timer_ticks. preserve.
Qed.

#[local] Hint Resolve preserves_timer_ticks : timer.

Lemma preserves_real_time_sleep num denom :
  preserves P (real_time_sleep TIMER_FREQ ticks_during wake_sweep num denom).
Proof.
  unfold real_time_sleep, spin_count, intr_get_level. preserve.
Qed.

#[local] Hint Resolve preserves_real_time_sleep : timer.

Lemma preserves_exec o :
  preserves P (exec TIMER_FREQ ticks_during wake_sweep o).
Proof.
  destruct o; cbn [exec];
    unfold timer_init, hw_interrupt, intr_get_level, timer_elapsed,
      timer_print_stats, timer_msleep, timer_usleep, timer_nsleep;
    preserve.
Qed.

#[local] Hint Resolve preserves_exec : timer.

Lemma preserves_run ops :
  preserves P (run TIMER_FREQ ticks_during wake_sweep ops).
Proof.
  induction ops; cbn [run]; preserve.
Qed.

End Invariant.

(** ** The tick counter (C6) *)

Lemma timer_sleep_view t st st' :
  timer_sleep t st = Ok tt st' ->
  ticks st' = ticks st /\ delivered st' = delivered st /\
  global_tick st' = Z.min (global_tick st) (wrap64 (ticks st + t)) /\
  sleep_calls (trace st') = sleep_calls (trace st) ++ [wrap64 (ticks st + t)] /\
  sleepers st' = sleepers st ++ [wrap64 (ticks st + t)].
Proof.
  intros H.
  destruct (timer_sleep_returns t st) as (st2 & H2 & Ht & Hd & Hg & Hs & _ & Hq & _).
  rewrite H in H2. injection H2 as <-. auto.
Qed.

Section Counter.

Variable TIMER_FREQ : Z.
Variable ticks_during : Z -> nat.
Variable wake_sweep : Z -> list Z -> list Z.

Lemma counts_interrupts_run ops :
  preserves counts_interrupts (run TIMER_FREQ ticks_during wake_sweep ops).
Proof.
  apply preserves_run; unfold counts_interrupts.
  - unfold view. intros st st' H. injection H as -> _ _ -> _. auto.
  - intros st H.
    destruct (intr_deliver_fields wake_sweep st) as (st' & -> & Ht & _ & _ & _ & Hd & _).
    simpl. rewrite Ht, Hd, H, wrap64_add_wrap. f_equal. lia.
  - intros t st H. destruct (timer_sleep_returns t st) as (st' & E & _).
    rewrite E. simpl. destruct (timer_sleep_view t st st' E) as (Ht & Hd & _).
    now rewrite Ht, Hd.
Qed.

Lemma delivered_from_run d0 ops :
  preserves (delivered_from d0) (run TIMER_FREQ ticks_during wake_sweep ops).
Proof.
  apply preserves_run; unfold delivered_from.
  - unfold view. intros st st' H. injection H as _ _ _ -> _. auto.
  - intros st H.
    destruct (intr_deliver_fields wake_sweep st) as (st' & -> & _ & _ & _ & _ & Hd & _).
    simpl. lia.
  - intros t st H. destruct (timer_sleep_returns t st) as (st' & E & _).
    rewrite E. simpl. destruct (timer_sleep_view t st st' E) as (_ & Hd & _).
    now rewrite Hd.
Qed.

(** C6: the tick counter is 0 at boot; every delivered timer interrupt
    replaces it by its 64-bit successor; and over every sequence of timer
    operations and interrupts it stays the 64-bit image of the number of
    interrupts delivered since boot.  So, as long as that number fits an
    int64_t, the counter equals it, [timer_ticks ()] returns it, and a
    later reading is never below an earlier one. *)
Theorem ticks_counts_delivered_interrupts (ops1 ops2 : list op) (st1 st2 : state) :
  run TIMER_FREQ ticks_during wake_sweep ops1 boot = Ok tt st1 ->
  run TIMER_FREQ ticks_during wake_sweep ops2 st1 = Ok tt st2 ->
  ticks boot = 0 /\
  (forall st, exists st',
     intr_deliver wake_sweep st = Ok tt st' /\
     ticks st' = wrap64 (ticks st + 1) /\ delivered st' = S (delivered st)) /\
  ticks st1 = wrap64 (Z.of_nat (delivered st1)) /\
  ticks st2 = wrap64 (Z.of_nat (delivered st2)) /\
  (delivered st1 <= delivered st2)%nat /\
  (Z.of_nat (delivered st2) <= INT64_MAX ->
   ticks st1 = Z.of_nat (delivered st1) /\
   ticks st2 = Z.of_nat (delivered st2) /\
   ticks st1 <= ticks st2 /\
   (exists s1, timer_ticks st1 = Ok (Z.of_nat (delivered st1)) s1) /\
   (exists s2, timer_ticks st2 = Ok (Z.of_nat (delivered st2)) s2)).
Proof.
  intros H1 H2.
  assert (C1 : counts_interrupts st1).
  { pose proof (counts_interrupts_run ops1 boot eq_refl) as H. now rewrite H1 in H. }
  assert (C2 : counts_interrupts st2).
  { pose proof (counts_interrupts_run ops2 st1 C1) as H. now rewrite H2 in H. }
  assert (D : (delivered st1 <= delivered st2)%nat).
  { pose proof (delivered_from_run (delivered st1) ops2 st1 (le_n _)) as H.
    now rewrite H2 in H. }
  unfold counts_interrupts in *.
  split; [reflexivity|]. split.
  { intros st. destruct (intr_deliver_fields wake_sweep st)
      as (st' & H & Ht & _ & _ & _ & Hd & _). eauto. }
  repeat (split; [assumption|]).
  intros Hmax.
  assert (E1 : ticks st1 = Z.of_nat (delivered st1)).
  { rewrite C1. apply wrap64_id. unfold in_int64, INT64_MIN, INT64_MAX in *. lia. }
  assert (E2 : ticks st2 = Z.of_nat (delivered st2)).
  { rewrite C2. apply wrap64_id. unfold in_int64, INT64_MIN, INT64_MAX in *. lia. }
  repeat split; try assumption; try lia.
  - rewrite timer_ticks_eq, E1. eauto.
  - rewrite timer_ticks_eq, E2. eauto.
Qed.

End Counter.

Lemma ticks_counts_delivered_interrupts_witness :
  exists st1 st2,
    run 100 spins_1600 sweep_due [OpInit; OpIntrEnable; OpInterrupt; OpInterrupt] boot
      = Ok tt st1 /\
    run 100 spins_1600 sweep_due [OpSleep 5; OpInterrupt; OpMsleep 1; OpTicks] st1
      = Ok tt st2 /\
    ticks st1 = 2 /\ ticks st2 = Z.of_nat (delivered st2) /\ ticks st1 <= ticks st2.
Proof.
  eexists. eexists.
  split; [vm_compute; reflexivity|].
  split; [vm_compute; reflexivity|].
  match goal with
  | |- ticks ?a = _ /\ ticks ?b = _ /\ _ =>
      destruct (ticks_counts_delivered_interrupts 100 spins_1600 sweep_due
                  [OpInit; OpIntrEnable; OpInterrupt; OpInterrupt]
                  [OpSleep 5; OpInterrupt; OpMsleep 1; OpTicks] a b)
        as (_ & _ & _ & _ & _ & H)
  end.
  - vm_compute; reflexivity.
  - vm_compute; reflexivity.
  - destruct H as (E1 & E2 & Hle & _).
    + now vm_compute.
    + split; [reflexivity|]. split; [exact E2 | exact Hle].
Defined.

(** ** The watermark (C3) *)

Lemma min_deadline_snoc s ds d :
  min_deadline s (ds ++ [d]) = Z.min (min_deadline s ds) d.
Proof. unfold min_deadline. now rewrite fold_left_app. Qed.

Lemma min_deadline_le ds : forall s,
  min_deadline s ds <= s /\ forall d, In d ds -> min_deadline s ds <= d.
Proof.
  unfold min_deadline.
  induction ds as [|x ds IH]; intros s; simpl.
  - split; [lia | contradiction].
  - destruct (IH (Z.min s x)) as [H1 H2]. split; [lia|].
    intros d [<-|Hd]; [lia | auto].
Qed.

Section Watermark.

Variable TIMER_FREQ : Z.
Variable ticks_during : Z -> nat.
Variable wake_sweep : Z -> list Z -> list Z.

(** The wake-sweep resumes threads: it adds no deadline to the queue. *)
Hypothesis wake_sweep_removes :
  forall now q d, In d (wake_sweep now q) -> In d q.

Lemma watermark_is_min_run ops :
  preserves watermark_is_min (run TIMER_FREQ ticks_during wake_sweep ops).
Proof.
  apply preserves_run; unfold watermark_is_min.
  - unfold view. intros st st' H. injection H as _ -> -> _ ->. auto.
  - intros st [Hg Hq].
    destruct (intr_deliver_fields wake_sweep st)
      as (st' & -> & _ & Hg' & _ & _ & _ & Hs & _ & _ & Hq').
    simpl. rewrite Hg', Hs. split; [assumption|].
    intros d Hd. destruct (Hq' d Hd) as [H|H]; eauto.
  - intros t st [Hg Hq]. destruct (timer_sleep_returns t st) as (st' & E & _).
    rewrite E. simpl.
    destruct (timer_sleep_view t st st' E) as (_ & _ & Hg' & Hs & Hq').
    rewrite Hg', Hs, Hq', min_deadline_snoc, Hg. split; [reflexivity|].
    intros d Hd. apply in_app_iff in Hd. apply in_app_iff.
    destruct Hd as [Hd|Hd]; auto.
Qed.

(** C3: in every state reached from boot by timer operations and
    interrupts, [global_tick] is the minimum of INT64_MAX and all the
    deadlines handed to [thread_sleep] so far, hence at most each of them,
    and at most every deadline the scheduler still holds.  In particular
    when a registration with deadline d is followed directly by one with
    deadline d' < d, the watermark the next tick check reads is at most
    d'. *)
Theorem global_tick_is_min_deadline (ops : list op) (st : state) :
  run TIMER_FREQ ticks_during wake_sweep ops boot = Ok tt st ->
  global_tick st = min_deadline INT64_MAX (sleep_calls (trace st)) /\
  (forall d, In d (sleep_calls (trace st)) -> global_tick st <= d) /\
  (forall d, In d (sleepers st) -> global_tick st <= d) /\
  (forall t t' st1 st2,
     timer_sleep t st = Ok tt st1 -> timer_sleep t' st1 = Ok tt st2 ->
     let d := wrap64 (ticks st + t) in
     let d' := wrap64 (ticks st1 + t') in
     sleep_calls (trace st2) = sleep_calls (trace st) ++ [d; d'] /\
     global_tick st2 = Z.min (Z.min (global_tick st) d) d' /\
     (d' < d -> global_tick st2 <= d') /\
     (forall st3, intr_deliver wake_sweep st2 = Ok tt st3 ->
        global_tick st3 = global_tick st2)).
Proof.
  intros Hrun.
  pose proof (watermark_is_min_run ops boot) as H.
  rewrite Hrun in H. destruct H as [Hg Hq].
  { split; [reflexivity | contradiction]. }
  split; [exact Hg|].
  assert (Hall : forall d, In d (sleep_calls (trace st)) -> global_tick st <= d).
  { rewrite Hg. apply min_deadline_le. }
  split; [exact Hall|]. split; [auto|].
  intros t t' st1 st2 E1 E2 d d'.
  destruct (timer_sleep_view _ _ _ E1) as (_ & _ & Hg1 & Hs1 & _).
  destruct (timer_sleep_view _ _ _ E2) as (_ & _ & Hg2 & Hs2 & _).
  fold d in Hg1, Hs1. fold d' in Hg2, Hs2.
  split; [now rewrite Hs2, Hs1, <- app_assoc|].
  split; [now rewrite Hg2, Hg1|].
  split; [lia|].
  intros st3 E3.
  destruct (intr_deliver_fields wake_sweep st2) as (st' & E & _ & Hg3 & _).
  rewrite E3 in E. injection E as <-. exact Hg3.
Qed.

End Watermark.

Lemma sweep_due_removes now q d : In d (sweep_due now q) -> In d q.
Proof. unfold sweep_due. intros H. now apply filter_In in H. Qed.

Lemma global_tick_is_min_deadline_witness :
  exists st,
    run 100 spins_1600 sweep_due
      [OpIntrEnable; OpInterrupt; OpSleep 50; OpSleep 20; OpInterrupt] boot = Ok tt st /\
    sleep_calls (trace st) = [51; 21] /\
    global_tick st = 21.
Proof.
  eexists. split; [vm_compute; reflexivity|]. split; [reflexivity|].
  match goal with
  | |- global_tick ?s = _ =>
      destruct (global_tick_is_min_deadline 100 spins_1600 sweep_due
                  sweep_due_removes
                  [OpIntrEnable; OpInterrupt; OpSleep 50; OpSleep 20; OpInterrupt] s)
        as (H & _)
  end.
  - vm_compute; reflexivity.
  - rewrite H. reflexivity.
Defined.

(** ** Spinning *)

Lemma wrap64_add_eq a n :
  in_int64 a -> 0 <= n -> (wrap64 (a + n) = a <-> n mod 2 ^ 64 = 0).
Proof.
  unfold in_int64, wrap64, INT64_MIN, INT64_MAX.
  change (2 ^ 63) with 9223372036854775808.
  change (2 ^ 64) with 18446744073709551616.
  intros Ha Hn. Z.div_mod_to_equations. lia.
Qed.

Section Spin.

Variable ticks_during : Z -> nat.
Variable wake_sweep : Z -> list Z -> list Z.

Lemma intr_deliver_n_total n : forall st,
  exists st',
    intr_deliver_n wake_sweep n st = Ok tt st' /\
    wrap64 (ticks st') = wrap64 (ticks st + Z.of_nat n) /\
    (in_int64 (ticks st) -> in_int64 (ticks st')) /\
    global_tick st' = global_tick st /\
    loops_per_tick st' = loops_per_tick st /\
    level st' = level st /\
    sleep_calls (trace st') = sleep_calls (trace st) /\
    busy_waits (trace st') = busy_waits (trace st).
Proof.
  induction n as [|n IH]; intros st.
  - exists st. simpl. rewrite Z.add_0_r. splits; auto.
  - destruct (intr_deliver_fields wake_sweep st)
      as (st1 & H1 & Ht & Hg & Hl & Hlv & _ & Hs & Hb & _).
    destruct (IH st1) as (st2 & H2 & Ht2 & Hr2 & Hg2 & Hl2 & Hlv2 & Hs2 & Hb2).
    exists st2. split.
    { cbn [intr_deliver_n]. now rewrite (bind_Ok _ _ _ _ _ H1). }
    splits; try congruence.
    + rewrite Ht2, Ht, wrap64_add_wrap. f_equal. lia.
    + intros _. apply Hr2. rewrite Ht. apply wrap64_range.
Qed.

Lemma busy_wait_fields loops st :
  exists st',
    busy_wait ticks_during wake_sweep loops st = Ok tt st' /\
    wrap64 (ticks st') =
      wrap64 (ticks st +
              match level st with
              | INTR_ON => Z.of_nat (ticks_during loops)
              | INTR_OFF => 0
              end) /\
    (in_int64 (ticks st) -> in_int64 (ticks st')) /\
    global_tick st' = global_tick st /\
    loops_per_tick st' = loops_per_tick st /\
    level st' = level st /\
    sleep_calls (trace st') = sleep_calls (trace st) /\
    busy_waits (trace st') = busy_waits (trace st) ++ [loops].
Proof.
  unfold busy_wait, intr_get_level.
  cbv [bind modify get]. cbn [level emit].
  destruct (level st) eqn:Hl.
  - eexists. split; [reflexivity|]. cbn. rewrite Z.add_0_r, sleep_calls_app,
      busy_waits_app. cbn. rewrite app_nil_r. splits; auto.
  - destruct (intr_deliver_n_total (ticks_during loops) (emit (EvBusyWait loops) st))
      as (st' & H & Ht & Hr & Hg & Hlp & Hlv & Hs & Hb).
    exists st'. split; [exact H|].
    rewrite Hs, Hb. cbn. rewrite sleep_calls_app, busy_waits_app. cbn.
    rewrite app_nil_r. splits; auto. now rewrite Hlv.
Qed.

(** With interrupts on, [too_many_loops] returns, and returns true
    exactly when the spin outlasted a tick. *)
Lemma too_many_loops_fields loops st :
  level st = INTR_ON ->
  exists st',
    too_many_loops ticks_during wake_sweep loops st
      = Ok (too_long ticks_during loops) st' /\
    loops_per_tick st' = loops_per_tick st /\
    level st' = INTR_ON /\
    global_tick st' = global_tick st /\
    sleep_calls (trace st') = sleep_calls (trace st) /\
    busy_waits (trace st') = busy_waits (trace st) ++ [loops].
Proof.
  intros Hl. unfold too_many_loops, intr_get_level.
  cbv [bind get]. rewrite Hl.
  destruct (intr_deliver_fields wake_sweep st)
    as (st1 & -> & Ht1 & Hg1 & Hlp1 & Hlv1 & _ & Hs1 & Hb1 & _).
  destruct (busy_wait_fields loops st1)
    as (st2 & -> & Ht2 & Hr2 & Hg2 & Hlp2 & Hlv2 & Hs2 & Hb2).
  exists st2. split.
  - unfold ret. f_equal. unfold too_long. f_equal.
    assert (R1 : in_int64 (ticks st1)) by (rewrite Ht1; apply wrap64_range).
    rewrite Hlv1, Hl in Ht2. rewrite (wrap64_id _ (Hr2 R1)) in Ht2.
    pose proof (wrap64_add_eq (ticks st1) (Z.of_nat (ticks_during loops)) R1
                  ltac:(lia)) as Hiff.
    destruct (Z.eqb_spec (ticks st1) (ticks st2)) as [E|E];
      destruct (Z.eqb_spec (Z.of_nat (ticks_during loops) mod 2 ^ 64) 0) as [E'|E'];
      try reflexivity; exfalso.
    + apply E'. apply Hiff. congruence.
    + apply E. symmetry. rewrite Ht2. now apply Hiff.
  - splits; congruence.
Qed.

End Spin.

(** ** Real-time sleeps (C2, C7, C8) *)

Lemma div64_pos a b : 0 < b -> div64 a b = Some (Z.quot a b).
Proof.
  intros Hb. unfold div64.
  destruct (Z.eqb_spec b 0); [lia|].
  destruct (Z.eqb_spec b (-1)); [lia|]. now rewrite andb_false_r.
Qed.

Lemma rem_1000_quot_pos denom :
  0 < denom -> Z.rem denom 1000 = 0 -> 0 < Z.quot denom 1000.
Proof.
  intros Hd Hr. pose proof (Z.quot_rem' denom 1000) as H.
  rewrite Hr in H. lia.
Qed.

Section RealTime.

Variable TIMER_FREQ : Z.
Variable ticks_during : Z -> nat.
Variable wake_sweep : Z -> list Z -> list Z.

Abbreviation rts := (real_time_sleep TIMER_FREQ ticks_during wake_sweep).
Abbreviation conv := (sleep_ticks TIMER_FREQ).
Abbreviation spins := (spin_loops TIMER_FREQ).

Lemma real_time_sleep_blocking num denom st :
  level st = INTR_ON -> 0 < denom -> 0 < conv num denom ->
  rts num denom st = timer_sleep (conv num denom) st.
Proof.
  intros Hl Hd Ht. unfold real_time_sleep, intr_get_level.
  cbv [bind idiv get ASSERT]. rewrite (div64_pos _ _ Hd), Hl. cbn [intr_level_eqb].
  fold (conv num denom). destruct (Z.gtb_spec (conv num denom) 0); [reflexivity | lia].
Qed.

Lemma real_time_sleep_spinning num denom st :
  level st = INTR_ON -> 0 < denom -> conv num denom <= 0 ->
  rts num denom st =
  if Z.rem denom 1000 =? 0
  then busy_wait ticks_during wake_sweep (spins (loops_per_tick st) num denom) st
  else Halt AssertDenom1000 st.
Proof.
  intros Hl Hd Ht. unfold real_time_sleep, intr_get_level.
  cbv [bind idiv get ASSERT spin_count]. rewrite (div64_pos _ _ Hd), Hl.
  cbn [intr_level_eqb]. fold (conv num denom).
  destruct (Z.gtb_spec (conv num denom) 0); [lia|].
  destruct (Z.eqb_spec (Z.rem denom 1000) 0) as [Hr|Hr]; [|reflexivity].
  rewrite (div64_pos _ 1000) by lia.
  rewrite (div64_pos denom 1000) by lia.
  rewrite div64_pos by (now apply rem_1000_quot_pos). reflexivity.
Qed.

(** C2, as the source groups it: in every call of [real_time_sleep] with
    interrupts on that takes the sub-tick branch with a positive [denom]
    that is a multiple of 1000, the call returns after one [busy_wait]
    whose count is ((loops_per_tick * num) / 1000) * TIMER_FREQ /
    (denom / 1000), evaluated left to right in 64 bits: loops_per_tick is
    multiplied by num before the division by 1000, and denom is divided by
    1000 before the final division.  No sleep is registered. *)
Theorem real_time_sleep_spin_count (num denom : Z) (st : state) :
  level st = INTR_ON -> 0 < denom -> Z.rem denom 1000 = 0 ->
  Z.quot (wrap64 (num * TIMER_FREQ)) denom <= 0 ->
  let lpt := loops_per_tick st in
  let n := Z.quot (wrap64 (Z.quot (wrap64 (lpt * num)) 1000 * TIMER_FREQ))
                  (Z.quot denom 1000) in
  (in_int64 (lpt * num) -> in_int64 (Z.quot (lpt * num) 1000 * TIMER_FREQ) ->
   n = code_spin_count TIMER_FREQ lpt num denom) /\
  exists st',
    rts num denom st = Ok tt st' /\
    busy_waits (trace st') = busy_waits (trace st) ++ [n] /\
    sleep_calls (trace st') = sleep_calls (trace st).
Proof.
  intros Hl Hd Hr Ht lpt n. split.
  - intros R1 R2. unfold n, code_spin_count. now rewrite (wrap64_id _ R1), (wrap64_id _ R2).
  - rewrite (real_time_sleep_spinning num denom st Hl Hd Ht), Hr. cbn [Z.eqb].
    destruct (busy_wait_fields ticks_during wake_sweep
                (spins (loops_per_tick st) num denom) st)
      as (st' & H & _ & _ & _ & _ & _ & Hs & Hb).
    exists st'. auto.
Qed.

(** C7: with interrupts on and a positive [denom], [real_time_sleep]
    computes ticks = num * TIMER_FREQ / denom in 64 bits, truncated toward
    zero (the integer quotient whenever the product fits).  When
    ticks > 0 the call is [timer_sleep (ticks)]: it registers the deadline
    with [thread_sleep] and never calls [busy_wait].  When ticks <= 0 it
    never calls [thread_sleep], whatever the outcome, and for [denom] a
    multiple of 1000 it returns after exactly one [busy_wait] (any other
    [denom] fails ASSERT (denom % 1000 == 0)).  At
    TIMER_FREQ = 100, [timer_msleep (1000)] is [timer_sleep (100)] and
    [timer_usleep (1)] spins without registering a sleep. *)
Theorem real_time_sleep_branches (num denom : Z) (st : state) :
  level st = INTR_ON -> 0 < denom ->
  let t := Z.quot (wrap64 (num * TIMER_FREQ)) denom in
  (in_int64 (num * TIMER_FREQ) -> t = Z.quot (num * TIMER_FREQ) denom) /\
  (0 < t ->
   rts num denom st = timer_sleep t st /\
   exists st',
     rts num denom st = Ok tt st' /\
     sleep_calls (trace st') = sleep_calls (trace st) ++ [wrap64 (ticks st + t)] /\
     busy_waits (trace st') = busy_waits (trace st)) /\
  (t <= 0 ->
   okish (fun st' => sleep_calls (trace st') = sleep_calls (trace st))
         (rts num denom st) /\
   (Z.rem denom 1000 = 0 ->
    exists n st',
      rts num denom st = Ok tt st' /\
      busy_waits (trace st') = busy_waits (trace st) ++ [n] /\
      sleep_calls (trace st') = sleep_calls (trace st)) /\
   (Z.rem denom 1000 <> 0 -> rts num denom st = Halt AssertDenom1000 st)) /\
  (TIMER_FREQ = 100 ->
   timer_msleep TIMER_FREQ ticks_during wake_sweep 1000 st = timer_sleep 100 st /\
   exists n st',
     timer_usleep TIMER_FREQ ticks_during wake_sweep 1 st = Ok tt st' /\
     busy_waits (trace st') = busy_waits (trace st) ++ [n] /\
     sleep_calls (trace st') = sleep_calls (trace st)).
Proof.
  intros Hl Hd t. splits.
  - intros R. unfold t. now rewrite (wrap64_id _ R).
  - intros Ht. pose proof (real_time_sleep_blocking num denom st Hl Hd Ht) as E.
    fold t in E. split; [exact E|]. rewrite E.
    destruct (timer_sleep_returns t st) as (st' & E' & _ & _ & _ & Hs & Hb & _).
    exists st'. auto.
  - intros Ht. rewrite (real_time_sleep_spinning num denom st Hl Hd Ht).
    destruct (busy_wait_fields ticks_during wake_sweep
                (spins (loops_per_tick st) num denom) st)
      as (st' & H & _ & _ & _ & _ & _ & Hs & Hb).
    split; [|split].
    + destruct (Z.rem denom 1000 =? 0); [rewrite H; exact Hs | reflexivity].
    + intros ->. cbn [Z.eqb]. eauto.
    + intros Hr. now destruct (Z.eqb_spec (Z.rem denom 1000) 0).
  - intros HF. split.
    + unfold timer_msleep.
      pose proof (real_time_sleep_blocking 1000 1000 st Hl) as E.
      unfold sleep_ticks in E. rewrite HF in *. now apply E.
    + unfold timer_usleep.
      pose proof (real_time_sleep_spinning 1 (1000 * 1000) st Hl) as E.
      unfold sleep_ticks in E. rewrite HF in *.
      rewrite E; [|reflexivity | now vm_compute].
      change (Z.rem (1000 * 1000) 1000 =? 0) with true. cbv iota.
      destruct (busy_wait_fields ticks_during wake_sweep
                  (spin_loops 100 (loops_per_tick st) 1 (1000 * 1000)) st)
        as (st' & H & _ & _ & _ & _ & _ & Hs & Hb).
      eauto.
Qed.

(** C8: entered with interrupts off, [timer_calibrate], [timer_msleep],
    [timer_usleep] and [timer_nsleep] halt on the failed
    ASSERT (intr_get_level () == INTR_ON) instead of returning, and so does
    [real_time_sleep] for every [denom] on which the conversion itself
    does not trap; the state at the halt is the state at entry, so the
    tick counter, the watermark and [loops_per_tick] are unmodified. *)
Theorem interrupts_off_halts (st : state) :
  level st = INTR_OFF ->
  timer_calibrate TIMER_FREQ ticks_during wake_sweep st = Halt AssertIntrOn st /\
  (forall num denom,
     div64 (wrap64 (num * TIMER_FREQ)) denom <> None ->
     rts num denom st = Halt AssertIntrOn st) /\
  (forall ms, timer_msleep TIMER_FREQ ticks_during wake_sweep ms st
              = Halt AssertIntrOn st) /\
  (forall us, timer_usleep TIMER_FREQ ticks_during wake_sweep us st
              = Halt AssertIntrOn st) /\
  (forall ns, timer_nsleep TIMER_FREQ ticks_during wake_sweep ns st
              = Halt AssertIntrOn st).
Proof.
  intros Hl.
  assert (R : forall num denom,
             div64 (wrap64 (num * TIMER_FREQ)) denom <> None ->
             rts num denom st = Halt AssertIntrOn st).
  { intros num denom Hdiv.
    unfold real_time_sleep, intr_get_level.
    cbv [bind idiv get ASSERT].
    destruct (div64 (wrap64 (num * TIMER_FREQ)) denom); [|congruence].
    now rewrite Hl. }
  splits.
  - unfold timer_calibrate, intr_get_level. cbv [bind get ASSERT]. now rewrite Hl.
  - exact R.
  - intros ms. apply R. now rewrite div64_pos.
  - intros us. apply R. now rewrite div64_pos.
  - intros ns. apply R. now rewrite div64_pos.
Qed.

End RealTime.

Lemma real_time_sleep_spin_count_witness :
  exists st',
    real_time_sleep 100 spins_1600 sweep_due 500 (1000 * 1000)
      (set_level INTR_ON (set_loops_per_tick 1024 boot)) = Ok tt st' /\
    busy_waits (trace st') = [51].
Proof.
  destruct (real_time_sleep_spin_count 100 spins_1600 sweep_due 500 (1000 * 1000)
              (set_level INTR_ON (set_loops_per_tick 1024 boot)))
    as (_ & st' & H & Hb & _).
  - reflexivity.
  - reflexivity.
  - reflexivity.
  - now vm_compute.
  - exists st'. split; [exact H | exact Hb].
Defined.

(** C2 as the specification groups it fails on [timer_usleep (500)] at
    100 Hz with [loops_per_tick] = 1024: the call takes the sub-tick branch
    (0 ticks, denom = 1000000 a multiple of 1000) and spins
    1024 * 500 / 1000 * 100 / 1000 = 51 loops, where the grouping
    1024 * (500 / 1000) * 100 / (1000000 / 1000) gives 0. *)
Lemma spin_count_groups_left_to_right :
  exists st',
    timer_usleep 100 spins_1600 sweep_due 500
      (set_level INTR_ON (set_loops_per_tick 1024 boot)) = Ok tt st' /\
    sleep_ticks 100 500 (1000 * 1000) = 0 /\
    Z.rem (1000 * 1000) 1000 = 0 /\
    busy_waits (trace st') = [51] /\
    spec_spin_count 100 1024 500 (1000 * 1000) = 0 /\
    busy_waits (trace st') <> [spec_spin_count 100 1024 500 (1000 * 1000)].
Proof.
  eexists. split; [vm_compute; reflexivity|].
  splits; try reflexivity. discriminate.
Qed.

Lemma real_time_sleep_branches_witness :
  timer_msleep 100 spins_1600 sweep_due 1000 (set_level INTR_ON boot)
  = timer_sleep 100 (set_level INTR_ON boot).
Proof.
  destruct (real_time_sleep_branches 100 spins_1600 sweep_due 1000 1000
              (set_level INTR_ON boot)) as (_ & _ & _ & H).
  - reflexivity.
  - reflexivity.
  - destruct (H eq_refl) as [E _]. exact E.
Defined.

Lemma interrupts_off_halts_witness :
  timer_calibrate 100 spins_1600 sweep_due boot = Halt AssertIntrOn boot /\
  timer_msleep 100 spins_1600 sweep_due 1000 boot = Halt AssertIntrOn boot.
Proof.
  destruct (interrupts_off_halts 100 spins_1600 sweep_due boot)
    as (Hc & _ & Hm & _).
  - reflexivity.
  - split; [exact Hc | exact (Hm 1000)].
Defined.

(** ** Calibration (C4) *)

Section Calibrate.

Variable ticks_during : Z -> nat.
Variable wake_sweep : Z -> list Z -> list Z.

Lemma calibrate_refine_loop h m : forall fuel b st,
  (m < fuel)%nat -> level st = INTR_ON -> stops_after h b m = true ->
  exists st',
    calibrate_refine ticks_during wake_sweep fuel h b st = Ok tt st' /\
    loops_per_tick st' = refine_acc ticks_during h (loops_per_tick st) (halvings b m) /\
    busy_waits (trace st') = busy_waits (trace st) ++ map (Z.lor h) (halvings b m) /\
    level st' = INTR_ON /\
    global_tick st' = global_tick st /\
    sleep_calls (trace st') = sleep_calls (trace st).
Proof.
  induction m as [|m IH]; intros fuel b st Hf Hl Hs;
    (destruct fuel as [|fuel]; [lia|]); cbn [calibrate_refine stops_after] in *.
  - rewrite Hs. exists st. cbn. rewrite app_nil_r. splits; auto.
  - apply andb_true_iff in Hs as [Hne Hs]. apply negb_true_iff in Hne. rewrite Hne.
    destruct (too_many_loops_fields ticks_during wake_sweep (Z.lor h b) st Hl)
      as (st1 & H1 & Hlp1 & Hlv1 & Hg1 & Hs1 & Hb1).
    rewrite (bind_Ok _ _ _ _ _ H1).
    set (st2 := if too_long ticks_during (Z.lor h b) then st1
                else set_loops_per_tick (Z.lor (loops_per_tick st1) b) st1).
    assert (H2 : (if negb (too_long ticks_during (Z.lor h b))
                  then modify (fun s => set_loops_per_tick (Z.lor (loops_per_tick s) b) s)
                  else ret tt) st1 = Ok tt st2).
    { unfold st2. now destruct (too_long ticks_during (Z.lor h b)). }
    rewrite (bind_Ok _ _ _ _ _ H2).
    destruct (IH fuel (Z.shiftr b 1) st2) as (st3 & H3 & Hlp3 & Hb3 & Hlv3 & Hg3 & Hs3).
    { lia. }
    { unfold st2. now destruct (too_long ticks_during (Z.lor h b)). }
    { exact Hs. }
    exists st3. split; [exact H3|].
    assert (Hst2 : loops_per_tick st2 =
                   (if too_long ticks_during (Z.lor h b) then loops_per_tick st
                    else Z.lor (loops_per_tick st) b) /\
                   trace st2 = trace st1 /\ global_tick st2 = global_tick st1).
    { unfold st2. destruct (too_long ticks_during (Z.lor h b)); cbn; rewrite ?Hlp1; auto. }
    destruct Hst2 as (Hlp2 & Htr2 & Hg2).
    splits.
    + rewrite Hlp3, Hlp2. cbn [halvings]. unfold refine_acc. cbn [fold_left]. reflexivity.
    + rewrite Hb3, Htr2, Hb1. cbn [halvings map]. now rewrite <- app_assoc.
    + exact Hlv3.
    + congruence.
    + rewrite Hs3, Htr2. exact Hs1.
Qed.

End Calibrate.

(** *** Powers of two *)

Lemma shiftr_pow2 k n : 0 <= n <= k -> Z.shiftr (2 ^ k) n = 2 ^ (k - n).
Proof.
  intros H. rewrite Z.shiftr_div_pow2 by lia. symmetry. apply Z.pow_sub_r; lia.
Qed.

Lemma pow2_eqb j k : 0 <= j -> 0 <= k -> (2 ^ j =? 2 ^ k) = (j =? k).
Proof.
  intros Hj Hk. destruct (Z.eqb_spec j k) as [->|Hne].
  - apply Z.eqb_refl.
  - apply Z.eqb_neq. intros E. apply Hne. apply (Z.pow_inj_r 2); lia.
Qed.

Lemma halvings_pow2 m : forall j,
  Z.of_nat m <= j ->
  halvings (2 ^ j) m = map (fun i => 2 ^ (j - Z.of_nat i)) (seq 0 m).
Proof.
  induction m as [|m IH]; intros j Hj; [reflexivity|].
  cbn [halvings seq map]. rewrite Z.sub_0_r. f_equal.
  rewrite shiftr_pow2 by lia. rewrite IH by lia.
  rewrite <- seq_shift, map_map. apply map_ext. intros i. f_equal. lia.
Qed.

Lemma stops_after_pow2 k m : forall j,
  10 <= k -> j = k - 10 + Z.of_nat m -> stops_after (2 ^ k) (2 ^ j) m = true.
Proof.
  induction m as [|m IH]; intros j Hk Hj; cbn [stops_after];
    rewrite (shiftr_pow2 k 10) by lia; rewrite pow2_eqb by lia.
  - apply Z.eqb_eq. lia.
  - apply andb_true_iff. split.
    + apply negb_true_iff, Z.eqb_neq. lia.
    + rewrite shiftr_pow2 by lia. apply IH; lia.
Qed.

Lemma test_bits_pow2 k :
  10 <= k ->
  test_bits (2 ^ k) =
  [2 ^ (k - 1); 2 ^ (k - 2); 2 ^ (k - 3); 2 ^ (k - 4); 2 ^ (k - 5);
   2 ^ (k - 6); 2 ^ (k - 7); 2 ^ (k - 8); 2 ^ (k - 9)].
Proof.
  intros Hk. unfold test_bits. rewrite shiftr_pow2 by lia.
  rewrite halvings_pow2 by lia. cbn [seq map Z.of_nat Pos.of_succ_nat Pos.succ].
  repeat (f_equal; try lia).
Qed.

(** *** Bits of the refined value *)

Lemma refine_acc_testbit td h (js : list Z) : forall acc i,
  0 <= i -> (forall j, In j js -> 0 <= j) ->
  Z.testbit (refine_acc td h acc (map (Z.pow 2) js)) i =
  Z.testbit acc i ||
  existsb (fun j => (i =? j) && negb (too_long td (Z.lor h (2 ^ j)))) js.
Proof.
  unfold refine_acc.
  induction js as [|j js IH]; intros acc i Hi Hjs; cbn [map fold_left existsb].
  - now rewrite orb_false_r.
  - rewrite IH by (auto with datatypes).
    destruct (too_long td (Z.lor h (2 ^ j))); cbn [negb].
    + now rewrite andb_false_r.
    + rewrite Z.lor_spec, Z.pow2_bits_eqb by (auto with datatypes).
      rewrite andb_true_r, orb_assoc. f_equal. f_equal. apply Z.eqb_sym.
Qed.

Lemma refine_acc_nonneg td h bits : forall acc,
  0 <= acc -> (forall b, In b bits -> 0 <= b) -> 0 <= refine_acc td h acc bits.
Proof.
  unfold refine_acc.
  induction bits as [|b bits IH]; intros acc Ha Hb; cbn [fold_left]; [assumption|].
  apply IH; [|auto with datatypes].
  destruct (too_long td (Z.lor h b)); [assumption|].
  apply Z.lor_nonneg. auto with datatypes.
Qed.

Lemma top_bit_bounds v k :
  0 <= k -> 0 <= v -> Z.testbit v k = true ->
  (forall i, k < i -> Z.testbit v i = false) ->
  2 ^ k <= v < 2 ^ (k + 1).
Proof.
  intros Hk Hv Hbit Hhigh.
  assert (Hpos : 0 < v).
  { destruct (Z.eq_dec v 0) as [->|]; [now rewrite Z.bits_0 in Hbit | lia]. }
  assert (Hlog : Z.log2 v = k).
  { pose proof (Z.bit_log2 v Hpos) as Hb.
    destruct (Z.lt_trichotomy (Z.log2 v) k) as [Hlt|[E|Hgt]]; [|exact E|].
    - rewrite (Z.bits_above_log2 v k Hv Hlt) in Hbit. discriminate.
    - rewrite (Hhigh _ Hgt) in Hb. discriminate. }
  pose proof (Z.log2_spec v Hpos) as H. rewrite Hlog in H.
  unfold Z.succ in H. exact H.
Qed.

Lemma low_bits_clear v m :
  0 <= m -> (forall i, 0 <= i < m -> Z.testbit v i = false) -> v mod 2 ^ m = 0.
Proof.
  intros Hm Hlow. apply Z.bits_inj'. intros n Hn. rewrite Z.bits_0.
  destruct (Z.lt_ge_cases n m).
  - rewrite Z.mod_pow2_bits_low by lia. apply Hlow. lia.
  - apply Z.mod_pow2_bits_high. lia.
Qed.

(** *** The two phases *)

Lemma bind_get {A B} (f : state -> A) (k : A -> M B) st :
  bind (get f) k st = k (f st) st.
Proof. reflexivity. Qed.

Lemma bind_modify {B} (f : state -> state) (k : unit -> M B) st :
  bind (modify f) k st = k tt (f st).
Proof. reflexivity. Qed.

Lemma bind_ASSERT {B} why b (k : unit -> M B) st :
  bind (ASSERT why b) k st = if b then k tt st else Halt why st.
Proof. unfold bind, ASSERT. now destruct b. Qed.

Lemma shiftl_pow2_u32 k :
  10 <= k <= 31 ->
  wrap_u32 (Z.shiftl (2 ^ k) 1) = if k =? 31 then 0 else 2 ^ (k + 1).
Proof.
  intros Hk. unfold wrap_u32. rewrite Z.shiftl_mul_pow2 by lia.
  rewrite <- Z.pow_add_r by lia.
  destruct (Z.eqb_spec k 31) as [->|Hne]; [reflexivity|].
  apply Z.mod_small. split; [apply Z.pow_nonneg; lia|].
  apply Z.pow_lt_mono_r; lia.
Qed.

Section Phases.

Variable TIMER_FREQ : Z.
Variable ticks_during : Z -> nat.
Variable wake_sweep : Z -> list Z -> list Z.

(** The doubling loop ends within 32 - k rounds, with a power of two whose
    double is too long, or on the assertion when the count overflows. *)
Lemma calibrate_coarse_loop m : forall fuel k st,
  (m < fuel)%nat -> 10 <= k <= 31 -> k + Z.of_nat m = 32 ->
  level st = INTR_ON -> loops_per_tick st = 2 ^ k ->
  (exists st',
     calibrate_coarse ticks_during wake_sweep fuel st = Halt AssertLoopsNonzero st') \/
  (exists k' st',
     k <= k' <= 31 /\
     calibrate_coarse ticks_during wake_sweep fuel st = Ok tt st' /\
     loops_per_tick st' = 2 ^ k' /\ level st' = INTR_ON /\
     too_long ticks_during (wrap_u32 (Z.shiftl (2 ^ k') 1)) = true /\
     forall j, k <= j < k' -> too_long ticks_during (2 ^ (j + 1)) = false).
Proof.
  induction m as [|m IH]; intros fuel k st Hf Hk Hm Hl Hlpt; [lia|].
  destruct fuel as [|fuel]; [lia|]. cbn [calibrate_coarse].
  rewrite bind_get, Hlpt.
  destruct (too_many_loops_fields ticks_during wake_sweep
              (wrap_u32 (Z.shiftl (2 ^ k) 1)) st Hl)
    as (st1 & H1 & Hlp1 & Hlv1 & _).
  rewrite (bind_Ok _ _ _ _ _ H1).
  destruct (too_long ticks_during (wrap_u32 (Z.shiftl (2 ^ k) 1))) eqn:Hlong.
  - right. exists k, st1. splits; auto; try lia; try congruence.
  - rewrite bind_modify, bind_get. cbn [loops_per_tick set_loops_per_tick].
    rewrite bind_ASSERT, Hlp1, Hlpt.
    rewrite shiftl_pow2_u32 in * by lia.
    destruct (Z.eqb_spec k 31) as [->|Hne].
    + left. cbn [Z.eqb negb]. eauto.
    + assert (Hnz : (2 ^ (k + 1) =? 0) = false).
      { apply Z.eqb_neq. pose proof (Z.pow_pos_nonneg 2 (k + 1)). lia. }
      rewrite Hnz. cbn [negb].
      destruct (IH fuel (k + 1) (set_loops_per_tick (2 ^ (k + 1)) st1))
        as [Hhalt | (k' & st' & Hk' & E & Hlp' & Hlv' & Hlong' & Hshort)];
        try lia; try assumption; try reflexivity.
      * left. exact Hhalt.
      * right. exists k', st'. splits; auto; try lia.
        intros j Hj. destruct (Z.eq_dec j k) as [->|]; [exact Hlong|].
        apply Hshort. lia.
Qed.

End Phases.

Section Refinement.

Variable TIMER_FREQ : Z.
Variable ticks_during : Z -> nat.
Variable wake_sweep : Z -> list Z -> list Z.

Lemma refined_bits k i :
  10 <= k -> 0 <= i ->
  Z.testbit (refine_acc ticks_during (2 ^ k) (2 ^ k) (test_bits (2 ^ k))) i =
  (i =? k) ||
  ((k - 9 <=? i) && (i <? k) && negb (too_long ticks_during (Z.lor (2 ^ k) (2 ^ i)))).
Proof.
  intros Hk Hi. rewrite test_bits_pow2 by lia.
  change [2 ^ (k - 1); 2 ^ (k - 2); 2 ^ (k - 3); 2 ^ (k - 4); 2 ^ (k - 5);
          2 ^ (k - 6); 2 ^ (k - 7); 2 ^ (k - 8); 2 ^ (k - 9)]
    with (map (Z.pow 2) [k - 1; k - 2; k - 3; k - 4; k - 5; k - 6; k - 7; k - 8; k - 9]).
  rewrite refine_acc_testbit.
  2: exact Hi.
  2: { cbn [In]. intros j Hj. lia. }
  rewrite Z.pow2_bits_eqb by lia. rewrite (Z.eqb_sym k i).
  cbn [existsb].
  destruct (Z.eqb_spec i k) as [->|Hik]; [reflexivity|]. cbn [orb].
  repeat match goal with
         | |- context [i =? ?a] => destruct (Z.eqb_spec i a) as [->|?]
         end;
    repeat match goal with
           | |- context [?a =? ?b] => destruct (Z.eqb_spec a b); try lia
           | |- context [?a <=? ?b] => destruct (Z.leb_spec a b); try lia
           | |- context [?a <? ?b] => destruct (Z.ltb_spec a b); try lia
           end;
    cbn [andb orb]; rewrite ?orb_false_r; try reflexivity.
Qed.

Lemma calibrate_refine_pow2 k fuel st :
  10 <= k <= 31 -> level st = INTR_ON -> loops_per_tick st = 2 ^ k ->
  (9 < fuel)%nat ->
  exists st',
    calibrate_refine ticks_during wake_sweep fuel (2 ^ k) (Z.shiftr (2 ^ k) 1) st
      = Ok tt st' /\
    busy_waits (trace st') =
      busy_waits (trace st) ++ map (Z.lor (2 ^ k)) (test_bits (2 ^ k)) /\
    loops_per_tick st' = refine_acc ticks_during (2 ^ k) (2 ^ k) (test_bits (2 ^ k)) /\
    level st' = INTR_ON.
Proof.
  intros Hk Hl Hlpt Hf.
  destruct (calibrate_refine_loop ticks_during wake_sweep (2 ^ k) 9 fuel
              (Z.shiftr (2 ^ k) 1) st Hf Hl)
    as (st' & H & Hlp & Hb & Hlv & _).
  { rewrite shiftr_pow2 by lia. apply stops_after_pow2; lia. }
  exists st'. rewrite Hlpt in Hlp. auto.
Qed.

(** C4, as the loop of [timer_calibrate] runs: with interrupts on and
    [loops_per_tick] = h = 2^k left by the doubling phase
    (10 <= k <= 31), the refinement returns after testing the nine bit
    positions h >> 1 down to h >> 9, in that order and once each; h >> 10
    is the loop's exclusive bound and is not tested.  Each test is one
    [too_many_loops] call, made on h | test_bit, and the bit is OR-ed into
    [loops_per_tick], which keeps the bits accepted before, exactly when
    that call returns false.  The result has bit k set, the nine bits
    below it as accepted, and no other bit: h <= loops_per_tick < 2 h with
    the low k - 9 bits zero, a 10-bit approximation.  [timer_calibrate]
    as a whole either halts on ASSERT (loops_per_tick != 0) or returns
    with such a value for the k its doubling phase stops at. *)
Theorem calibrate_refines_nine_bits (st : state) :
  level st = INTR_ON ->
  (forall k fuel,
     10 <= k <= 31 -> loops_per_tick st = 2 ^ k -> (9 < fuel)%nat ->
     let h := 2 ^ k in
     test_bits h =
       [Z.shiftr h 1; Z.shiftr h 2; Z.shiftr h 3; Z.shiftr h 4; Z.shiftr h 5;
        Z.shiftr h 6; Z.shiftr h 7; Z.shiftr h 8; Z.shiftr h 9] /\
     ~ In (Z.shiftr h 10) (test_bits h) /\
     exists st',
       calibrate_refine ticks_during wake_sweep fuel h (Z.shiftr h 1) st = Ok tt st' /\
       busy_waits (trace st') = busy_waits (trace st) ++ map (Z.lor h) (test_bits h) /\
       loops_per_tick st' = refine_acc ticks_during h h (test_bits h) /\
       (forall i, 0 <= i ->
          Z.testbit (loops_per_tick st') i =
          (i =? k) ||
          ((k - 9 <=? i) && (i <? k) &&
           negb (too_long ticks_during (Z.lor h (2 ^ i))))) /\
       h <= loops_per_tick st' < 2 * h /\
       loops_per_tick st' mod 2 ^ (k - 9) = 0) /\
  ((exists st',
      timer_calibrate TIMER_FREQ ticks_during wake_sweep st
        = Halt AssertLoopsNonzero st') \/
   (exists k st',
      10 <= k <= 31 /\
      timer_calibrate TIMER_FREQ ticks_during wake_sweep st = Ok tt st' /\
      too_long ticks_during (wrap_u32 (Z.shiftl (2 ^ k) 1)) = true /\
      (forall j, 10 <= j < k -> too_long ticks_during (2 ^ (j + 1)) = false) /\
      loops_per_tick st' = refine_acc ticks_during (2 ^ k) (2 ^ k) (test_bits (2 ^ k)))).
Proof.
  intros Hl. split.
  - intros k fuel Hk Hlpt Hf h. unfold h.
    assert (Hbits : test_bits (2 ^ k) =
                    [2 ^ (k - 1); 2 ^ (k - 2); 2 ^ (k - 3); 2 ^ (k - 4); 2 ^ (k - 5);
                     2 ^ (k - 6); 2 ^ (k - 7); 2 ^ (k - 8); 2 ^ (k - 9)])
      by (apply test_bits_pow2; lia).
    splits.
    + rewrite Hbits. rewrite !shiftr_pow2 by lia. reflexivity.
    + rewrite Hbits, shiftr_pow2 by lia. cbn [In].
      intros H. repeat destruct H as [H|H]; try contradiction;
        apply (Z.pow_inj_r 2) in H; lia.
    + destruct (calibrate_refine_pow2 k fuel st Hk Hl Hlpt Hf)
        as (st' & H & Hb & Hlp & _).
      exists st'. do 3 (split; [assumption|]). split; [|split].
      * intros i Hi. rewrite Hlp. apply refined_bits; lia.
      * rewrite Hlp. replace (2 * 2 ^ k) with (2 ^ (k + 1))
          by (rewrite Z.pow_add_r; lia).
        apply top_bit_bounds; try lia.
        -- apply refine_acc_nonneg; [apply Z.pow_nonneg; lia|].
           rewrite Hbits. cbn [In]. intros b Hb'.
           repeat destruct Hb' as [<-|Hb']; try contradiction;
             apply Z.pow_nonneg; lia.
        -- rewrite refined_bits by lia. now rewrite Z.eqb_refl.
        -- intros i Hi. rewrite refined_bits by lia.
           destruct (Z.eqb_spec i k); [lia|].
           destruct (Z.ltb_spec i k); [lia|]. now rewrite andb_false_r.
      * rewrite Hlp. apply low_bits_clear; [lia|].
        intros i Hi. rewrite refined_bits by lia.
        destruct (Z.eqb_spec i k); [lia|].
        destruct (Z.leb_spec (k - 9) i); [lia|]. reflexivity.
  - unfold timer_calibrate, intr_get_level.
    rewrite bind_get, Hl, bind_ASSERT. cbn [intr_level_eqb].
    rewrite !bind_modify. change (Z.shiftl 1 10) with (2 ^ 10).
    set (st0 := set_loops_per_tick (2 ^ 10) (emit (EvPrintf []) st)).
    destruct (calibrate_coarse_loop ticks_during wake_sweep 22 calibrate_fuel 10 st0)
      as [(st1 & H1) | (k & st1 & Hk & H1 & Hlp1 & Hlv1 & Hlong & Hshort)];
      try reflexivity; try lia; try exact Hl.
    { unfold calibrate_fuel. lia. }
    + left. exists st1. unfold bind at 1. now rewrite H1.
    + right.
      destruct (calibrate_refine_pow2 k calibrate_fuel st1) as (st2 & H2 & _ & Hlp2 & _);
        try assumption; try lia.
      { unfold calibrate_fuel. lia. }
      eexists k, _. split; [lia|]. split.
      * rewrite (bind_Ok _ _ _ _ _ H1), bind_get, Hlp1.
        rewrite (bind_Ok _ _ _ _ _ H2), bind_get. reflexivity.
      * splits; assumption.
Qed.

End Refinement.

Lemma calibrate_refines_nine_bits_witness :
  exists st',
    calibrate_refine spins_1600 sweep_due 33 1024 512
      (set_level INTR_ON (set_loops_per_tick 1024 boot)) = Ok tt st' /\
    busy_waits (trace st') = [1536; 1280; 1152; 1088; 1056; 1040; 1032; 1028; 1026] /\
    loops_per_tick st' = 2046.
Proof.
  destruct (calibrate_refines_nine_bits 100 spins_1600 sweep_due
              (set_level INTR_ON (set_loops_per_tick 1024 boot)) eq_refl)
    as [H _].
  destruct (H 10 33%nat) as (_ & _ & st' & E & Hb & Hlp & _).
  - lia.
  - reflexivity.
  - lia.
  - exists st'. split; [exact E|]. split; [exact Hb | exact Hlp].
Defined.

(** C4 as the specification words it fails on a machine that spins 1600
    loops per tick: [timer_calibrate] stops doubling at h = 1024, then
    probes 1024 | 512, 1024 | 256, ..., 1024 | 2, nine counts that each
    fit a tick, and returns 2046, itself too long for a tick.  It never
    probes bit h >> 10 = 1, and its second probe is 1280, not
    1536 | 256.  Testing h >> 1 down to h >> 10 on top of the accepted
    bits gives 1600. *)
Lemma calibrate_differs_from_accumulating_refinement :
  exists st',
    timer_calibrate 100 spins_1600 sweep_due (set_level INTR_ON boot) = Ok tt st' /\
    busy_waits (trace st') =
      [2048; 1536; 1280; 1152; 1088; 1056; 1040; 1032; 1028; 1026] /\
    loops_per_tick st' = 2046 /\
    too_long spins_1600 2046 = true /\
    spec_refine spins_1600 1024 = 1600 /\
    loops_per_tick st' <> spec_refine spins_1600 1024.
Proof.
  eexists. split; [vm_compute; reflexivity|].
  splits; try reflexivity. discriminate.
Qed.

Lemma timer_sleep_registers_witness :
  exists st',
    timer_sleep 50 (set_level INTR_ON (set_ticks 250 boot)) = Ok tt st' /\
    global_tick st' = 300 /\
    sleepers st' = [300] /\
    level st' = INTR_ON.
Proof.
  destruct (timer_sleep_registers 50 (set_level INTR_ON (set_ticks 250 boot)))
    as (st' & E & Hd & Hg & Hq & _ & Hl & _).
  exists st'. split; [exact E|]. cbv zeta in *.
  assert (R : in_int64 (ticks (set_level INTR_ON (set_ticks 250 boot)) + 50))
    by now vm_compute.
  rewrite (Hd R) in *.
  split; [rewrite Hg; reflexivity|]. split; [rewrite Hq; reflexivity | exact Hl].
Defined.

(** * Further properties of timer.c *)

(** ** Programming the 8254 *)

(** X1: For every TIMER_FREQ the build accepts, [timer_init] returns after
    exactly four calls, in order: the control word 0x34 to port 0x43, the
    low then the high byte of the divisor to port 0x40, and the
    registration of the handler at vector 0x20.  The two data bytes are
    bytes, and read LSB then MSB they are the 8254 input frequency divided
    by TIMER_FREQ rounded to nearest.  No variable of the timer and not the
    interrupt level is touched. *)
Theorem timer_init_writes_divisor_bytes (freq : Z) (st : state) :
  19 <= freq <= 1000 ->
  exists lo hi st',
    timer_init freq st = Ok tt st' /\
    trace st' = trace st ++ [(level st, EvOutb 0x43 0x34);
                             (level st, EvOutb 0x40 lo);
                             (level st, EvOutb 0x40 hi);
                             (level st, EvIntrRegister 0x20)] /\
    0 <= lo <= 255 /\ 0 <= hi <= 255 /\
    hi * 256 + lo = nearest_count freq /\
    ticks st' = ticks st /\ global_tick st' = global_tick st /\
    loops_per_tick st' = loops_per_tick st /\ level st' = level st /\
    sleepers st' = sleepers st.
Proof.
  intros Hf.
  assert (Hc : divisor_bytes_ok freq = true).
  { apply (all_from_spec divisor_bytes_ok 982 19); [now vm_compute | lia]. }
  unfold divisor_bytes_ok in Hc. cbv zeta in Hc.
  rewrite !andb_true_iff in Hc. destruct Hc as [[[[H1 H2] H3] H4] H5].
  apply Z.leb_le in H1, H2, H3, H4. apply Z.eqb_eq in H5.
  exists (Z.land (timer_count freq) 0xff), (Z.shiftr (timer_count freq) 8).
  eexists. split; [reflexivity|].
  cbn [trace emit level ticks global_tick loops_per_tick sleepers].
  rewrite <- !app_assoc. cbn [app].
  split; [reflexivity|]. split; [lia|]. split; [lia|]. split; [exact H5|].
  splits; reflexivity.
Qed.

Lemma timer_init_writes_divisor_bytes_witness :
  exists st',
    timer_init 100 boot = Ok tt st' /\
    trace st' = [(INTR_OFF, EvOutb 0x43 0x34); (INTR_OFF, EvOutb 0x40 156);
                 (INTR_OFF, EvOutb 0x40 46); (INTR_OFF, EvIntrRegister 0x20)].
Proof.
  destruct (timer_init_writes_divisor_bytes 100 boot ltac:(lia))
    as (lo & hi & st' & E & Htr & _).
  exists st'. split; [exact E|].
  vm_compute in E. injection E as <-. reflexivity.
Defined.

(** ** Reading the clock *)

(** X2: A reading [t] of [timer_ticks ()], then [n] delivered interrupts, then
    [timer_elapsed (t)]: the call returns exactly [n], provided the counter
    is non-negative and stays within int64_t.  Neither call changes the
    counter or the interrupt level. *)
Theorem timer_elapsed_counts_ticks_since
    (wake_sweep : Z -> list Z -> list Z) (st : state) (n : nat) :
  0 <= ticks st -> ticks st + Z.of_nat n <= INT64_MAX ->
  exists st1 st2 st3,
    timer_ticks st = Ok (ticks st) st1 /\
    intr_deliver_n wake_sweep n st1 = Ok tt st2 /\
    timer_elapsed (ticks st) st2 = Ok (Z.of_nat n) st3 /\
    ticks st1 = ticks st /\ level st1 = level st /\
    ticks st3 = ticks st + Z.of_nat n /\ level st3 = level st.
Proof.
  intros H0 Hn.
  rewrite timer_ticks_eq.
  set (st1 := mkState (ticks st) (global_tick st) (loops_per_tick st) (level st)
                (sleepers st) (trace st ++ [(INTR_OFF, EvLoadTicks (ticks st))])).
  destruct (intr_deliver_n_fields wake_sweep n st1) as (st2 & E2 & Ht2 & _ & _ & Hl2 & _).
  { unfold in_int64, INT64_MIN, INT64_MAX in *. cbn. lia. }
  { exact Hn. }
  exists st1, st2. eexists. split; [reflexivity|]. split; [exact E2|].
  unfold timer_elapsed. rewrite (bind_Ok _ _ _ _ _ (timer_ticks_eq st2)).
  unfold ret. subst st1. cbn [ticks level] in *.
  assert (Hv : wrap64 (ticks st2 - ticks st) = Z.of_nat n).
  { rewrite Ht2. replace (ticks st + Z.of_nat n - ticks st) with (Z.of_nat n) by lia.
    apply wrap64_id. unfold in_int64, INT64_MIN, INT64_MAX in *. lia. }
  rewrite Hv. split; [reflexivity|].
  cbn [ticks level]. splits; auto.
Qed.

Lemma timer_elapsed_counts_ticks_since_witness :
  exists st1 st2 st3,
    timer_ticks (set_level INTR_ON (set_ticks 250 boot)) = Ok 250 st1 /\
    intr_deliver_n sweep_due 7 st1 = Ok tt st2 /\
    timer_elapsed 250 st2 = Ok 7 st3.
Proof.
  destruct (timer_elapsed_counts_ticks_since sweep_due
              (set_level INTR_ON (set_ticks 250 boot)) 7)
    as (st1 & st2 & st3 & E1 & E2 & E3 & _).
  - now vm_compute.
  - now vm_compute.
  - exists st1, st2, st3. split; [exact E1|]. split; [exact E2 | exact E3].
Defined.

(** ** The watermark is only ever lowered *)

Section WatermarkMoves.

Variable TIMER_FREQ : Z.
Variable ticks_during : Z -> nat.
Variable wake_sweep : Z -> list Z -> list Z.

Lemma watermark_lowered_by_sleeps_run g0 n0 ops :
  preserves (watermark_lowered_by_sleeps g0 n0)
            (run TIMER_FREQ ticks_during wake_sweep ops).
Proof.
  apply preserves_run; unfold watermark_lowered_by_sleeps.
  - unfold view. intros st st' H. injection H as _ -> _ _ ->. auto.
  - intros st (Hg & Hn & He).
    destruct (intr_deliver_fields wake_sweep st)
      as (st' & -> & _ & Hg' & _ & _ & _ & Hs & _).
    simpl. rewrite Hg', Hs. auto.
  - intros t st (Hg & Hn & He).
    destruct (timer_sleep_returns t st) as (st' & -> & _ & _ & Hg' & Hs & _).
    simpl. rewrite Hg', Hs, length_app. cbn [length]. splits; lia.
Qed.

(** X3: No sequence of timer operations and interrupts raises [global_tick]:
    whatever the run does, and however it ends, the watermark it leaves is
    at most the one it started with, and it is the same one when no
    [thread_sleep] registration was made.  In particular the handler's
    [wake_up] never resets it. *)
Theorem global_tick_never_raised (ops : list op) (st : state) :
  okish (fun st' =>
           global_tick st' <= global_tick st /\
           (sleep_calls (trace st') = sleep_calls (trace st) ->
            global_tick st' = global_tick st))
        (run TIMER_FREQ ticks_during wake_sweep ops st).
Proof.
  pose proof (watermark_lowered_by_sleeps_run (global_tick st)
                (length (sleep_calls (trace st))) ops st) as H.
  unfold watermark_lowered_by_sleeps in H.
  destruct (run TIMER_FREQ ticks_during wake_sweep ops st); simpl in *; auto;
    (destruct H as (Hg & _ & He); [splits; auto; lia |];
     split; [exact Hg | intros E; apply He; now rewrite E]).
Qed.

End WatermarkMoves.

Lemma filter_Zseq_all g : forall n z,
  g < z -> filter (fun t => g <? t) (Zseq z n) = Zseq z n.
Proof.
  induction n as [|n IH]; intros z H; [reflexivity|].
  cbn [Zseq filter]. destruct (Z.ltb_spec g z); [|lia]. f_equal. apply IH. lia.
Qed.

(** X4: Once the counter has reached the watermark, every further interrupt
    calls [wake_up]: from a counter at or above [global_tick], [n]
    delivered interrupts make [n] calls, one per tick with that tick's
    count, and leave the watermark where it was (counter within
    int64_t). *)
Theorem wake_up_on_every_tick_past_watermark
    (wake_sweep : Z -> list Z -> list Z) (st : state) (n : nat) :
  INT64_MIN <= ticks st -> global_tick st <= ticks st ->
  ticks st + Z.of_nat n <= INT64_MAX ->
  exists st',
    intr_deliver_n wake_sweep n st = Ok tt st' /\
    wake_calls (trace st') = wake_calls (trace st) ++ Zseq (ticks st + 1) n /\
    global_tick st' = global_tick st /\
    ticks st' = ticks st + Z.of_nat n.
Proof.
  intros Hmin Hg Hn.
  destruct (intr_deliver_n_fields wake_sweep n st) as (st' & E & Ht & Hg' & _ & _ & Hw).
  { unfold in_int64. lia. }
  { exact Hn. }
  exists st'. rewrite Hw, filter_Zseq_all by lia. auto.
Qed.

Lemma wake_up_on_every_tick_past_watermark_witness :
  exists st',
    intr_deliver_n sweep_due 3 (set_global_tick 300 (set_ticks 300 boot)) = Ok tt st' /\
    wake_calls (trace st') = [301; 302; 303] /\
    global_tick st' = 300.
Proof.
  destruct (wake_up_on_every_tick_past_watermark sweep_due
              (set_global_tick 300 (set_ticks 300 boot)) 3)
    as (st' & E & Hw & Hg & _).
  - now vm_compute.
  - now vm_compute.
  - now vm_compute.
  - exists st'. split; [exact E|]. split; [exact Hw | exact Hg].
Defined.

(** ** Real-time sleeps: rounding, bounds, and the three entry points *)

Lemma quot_bounds a b :
  0 <= a -> 0 < b -> b * Z.quot a b <= a < b * Z.quot a b + b.
Proof.
  intros Ha Hb. rewrite Z.quot_div_nonneg by lia.
  pose proof (Z.mul_div_le a b Hb). pose proof (Z.mul_succ_div_gt a b Hb). lia.
Qed.

Section RealTimeBounds.

Variable TIMER_FREQ : Z.
Variable ticks_during : Z -> nat.
Variable wake_sweep : Z -> list Z -> list Z.

Abbreviation rts := (real_time_sleep TIMER_FREQ ticks_during wake_sweep).

(** X5: A request of at least one tick blocks for the requested time rounded
    down to whole ticks: for 0 <= num with num * TIMER_FREQ within int64_t
    and at least [denom] > 0, [real_time_sleep] (interrupts on) registers
    the deadline start + t, where t is the one integer with
    t * denom <= num * TIMER_FREQ < (t + 1) * denom, lowers the watermark
    to it, and does not spin. *)
Theorem real_time_sleep_rounds_down (num denom : Z) (st : state) :
  level st = INTR_ON -> 0 < denom -> 0 <= num ->
  denom <= num * TIMER_FREQ <= INT64_MAX ->
  exists t st',
    1 <= t /\
    t * denom <= num * TIMER_FREQ < (t + 1) * denom /\
    rts num denom st = Ok tt st' /\
    sleep_calls (trace st') = sleep_calls (trace st) ++ [wrap64 (ticks st + t)] /\
    global_tick st' = Z.min (global_tick st) (wrap64 (ticks st + t)) /\
    busy_waits (trace st') = busy_waits (trace st) /\
    level st' = INTR_ON.
Proof.
  intros Hl Hd Hnum Hr.
  assert (Hw : wrap64 (num * TIMER_FREQ) = num * TIMER_FREQ).
  { apply wrap64_id. unfold in_int64, INT64_MIN, INT64_MAX in *. lia. }
  pose proof (quot_bounds (num * TIMER_FREQ) denom ltac:(lia) Hd) as Hq.
  assert (Ht : 0 < sleep_ticks TIMER_FREQ num denom).
  { unfold sleep_ticks. rewrite Hw. nia. }
  pose proof (real_time_sleep_blocking TIMER_FREQ ticks_during wake_sweep
                num denom st Hl Hd Ht) as E.
  destruct (timer_sleep_returns (sleep_ticks TIMER_FREQ num denom) st)
    as (st' & E' & _ & _ & Hg & Hs & Hb & _ & Hlv).
  exists (sleep_ticks TIMER_FREQ num denom), st'.
  split; [lia|]. split.
  { unfold sleep_ticks. rewrite Hw. lia. }
  split; [now rewrite E|]. rewrite Hlv. auto.
Qed.

(** X6: A request of less than one tick spins for less than a tick's worth of
    loops, and nothing in the computation overflows: for
    1 <= TIMER_FREQ <= 1000, an [unsigned] [loops_per_tick], 0 <= num with
    num * TIMER_FREQ < denom, and [denom] an int32_t multiple of 1000,
    [real_time_sleep] (interrupts on) returns after one [busy_wait] whose
    count is the exact integer value of
    loops_per_tick * num / 1000 * TIMER_FREQ / (denom / 1000), between 0
    and [loops_per_tick]; it registers no sleep and leaves the watermark
    alone. *)
Theorem real_time_sleep_spin_within_tick (num denom : Z) (st : state) :
  level st = INTR_ON ->
  1 <= TIMER_FREQ <= 1000 ->
  0 <= loops_per_tick st < 2 ^ 32 ->
  0 < denom < 2 ^ 31 -> Z.rem denom 1000 = 0 ->
  0 <= num -> num * TIMER_FREQ < denom ->
  exists n st',
    n = code_spin_count TIMER_FREQ (loops_per_tick st) num denom /\
    0 <= n <= loops_per_tick st /\
    rts num denom st = Ok tt st' /\
    busy_waits (trace st') = busy_waits (trace st) ++ [n] /\
    sleep_calls (trace st') = sleep_calls (trace st) /\
    global_tick st' = global_tick st.
Proof.
  intros Hl HF Hlpt Hd Hrem Hnum Hsub.
  change (2 ^ 32) with 4294967296 in Hlpt. change (2 ^ 31) with 2147483648 in Hd.
  set (lpt := loops_per_tick st) in *.
  assert (Hnum' : num < 2147483648) by nia.
  assert (Hw0 : wrap64 (num * TIMER_FREQ) = num * TIMER_FREQ).
  { apply wrap64_id. unfold in_int64, INT64_MIN, INT64_MAX.
    change (2 ^ 63) with 9223372036854775808. nia. }
  assert (Ht : sleep_ticks TIMER_FREQ num denom <= 0).
  { unfold sleep_ticks. rewrite Hw0, Z.quot_small; lia. }
  pose proof (quot_bounds (lpt * num) 1000 ltac:(nia) ltac:(lia)) as Ha.
  set (a := Z.quot (lpt * num) 1000) in *.
  pose proof (quot_bounds denom 1000 ltac:(lia) ltac:(lia)) as Hd1.
  pose proof (Z.quot_rem' denom 1000) as Hd2. rewrite Hrem in Hd2.
  set (d := Z.quot denom 1000) in *.
  assert (Hdpos : 0 < d) by lia.
  assert (Ha0 : 0 <= a) by (apply Z.quot_pos; nia).
  pose proof (quot_bounds (a * TIMER_FREQ) d ltac:(nia) Hdpos) as Hn.
  assert (Hw1 : wrap64 (lpt * num) = lpt * num).
  { apply wrap64_id. unfold in_int64, INT64_MIN, INT64_MAX.
    change (2 ^ 63) with 9223372036854775808. nia. }
  assert (Hw2 : wrap64 (a * TIMER_FREQ) = a * TIMER_FREQ).
  { apply wrap64_id. unfold in_int64, INT64_MIN, INT64_MAX.
    change (2 ^ 63) with 9223372036854775808. nia. }
  assert (Hspin : spin_loops TIMER_FREQ lpt num denom
                  = code_spin_count TIMER_FREQ lpt num denom).
  { unfold spin_loops, code_spin_count. rewrite Hw1. fold a. now rewrite Hw2. }
  assert (Hbound : 0 <= code_spin_count TIMER_FREQ lpt num denom <= lpt).
  { unfold code_spin_count. fold a d.
    set (n := Z.quot (a * TIMER_FREQ) d) in *.
    assert (0 <= n) by (apply Z.quot_pos; nia).
    split; [assumption|].
    destruct (Z.le_gt_cases n lpt) as [|Hgt]; [assumption|exfalso].
    assert (H1 : (lpt + 1) * d <= a * TIMER_FREQ) by nia.
    assert (H2 : 1000 * (a * TIMER_FREQ) <= lpt * (num * TIMER_FREQ)) by nia.
    assert (H3 : lpt * (num * TIMER_FREQ) <= lpt * denom) by nia.
    nia. }
  rewrite (real_time_sleep_spinning TIMER_FREQ ticks_during wake_sweep
             num denom st Hl ltac:(lia) Ht), Hrem.
  cbn [Z.eqb]. fold lpt. rewrite Hspin.
  destruct (busy_wait_fields ticks_during wake_sweep
              (code_spin_count TIMER_FREQ lpt num denom) st)
    as (st' & E & _ & _ & Hg & _ & _ & Hs & Hb).
  exists (code_spin_count TIMER_FREQ lpt num denom), st'. auto 10.
Qed.

End RealTimeBounds.

Lemma real_time_sleep_rounds_down_witness :
  exists st',
    real_time_sleep 100 spins_1600 sweep_due 25 1000
      (set_level INTR_ON (set_ticks 250 boot)) = Ok tt st' /\
    sleep_calls (trace st') = [252].
Proof.
  destruct (real_time_sleep_rounds_down 100 spins_1600 sweep_due 25 1000
              (set_level INTR_ON (set_ticks 250 boot)))
    as (t & st' & _ & _ & E & _).
  - reflexivity.
  - lia.
  - lia.
  - now vm_compute.
  - exists st'. split; [exact E|].
    vm_compute in E. injection E as <-. reflexivity.
Defined.

Lemma real_time_sleep_spin_within_tick_witness :
  exists n st',
    0 <= n <= 2046 /\
    real_time_sleep 100 spins_1600 sweep_due 500 (1000 * 1000)
      (set_level INTR_ON (set_loops_per_tick 2046 boot)) = Ok tt st' /\
    busy_waits (trace st') = [n].
Proof.
  destruct (real_time_sleep_spin_within_tick 100 spins_1600 sweep_due 500 (1000 * 1000)
              (set_level INTR_ON (set_loops_per_tick 2046 boot)))
    as (n & st' & _ & Hn & E & Hb & _).
  - reflexivity.
  - lia.
  - now vm_compute.
  - now vm_compute.
  - reflexivity.
  - lia.
  - lia.
  - exists n, st'. split; [exact Hn|]. split; [exact E | exact Hb].
Defined.

Section EntryPoints.

Variable TIMER_FREQ : Z.
Variable ticks_during : Z -> nat.
Variable wake_sweep : Z -> list Z -> list Z.

Lemma real_time_sleep_returns num denom st :
  level st = INTR_ON -> 0 < denom -> Z.rem denom 1000 = 0 ->
  exists st',
    real_time_sleep TIMER_FREQ ticks_during wake_sweep num denom st = Ok tt st' /\
    level st' = INTR_ON /\ loops_per_tick st' = loops_per_tick st /\
    one_wait st st'.
Proof.
  intros Hl Hd Hr.
  destruct (Z.lt_ge_cases 0 (sleep_ticks TIMER_FREQ num denom)) as [Ht|Ht].
  - rewrite (real_time_sleep_blocking TIMER_FREQ ticks_during wake_sweep
               num denom st Hl Hd Ht).
    destruct (timer_sleep_returns (sleep_ticks TIMER_FREQ num denom) st)
      as (st' & E & _ & _ & _ & Hs & Hb & _ & Hlv).
    exists st'. split; [exact E|]. split; [congruence|]. split.
    + rewrite timer_sleep_eq in E. injection E as <-. reflexivity.
    + left. eauto.
  - rewrite (real_time_sleep_spinning TIMER_FREQ ticks_during wake_sweep
               num denom st Hl Hd Ht), Hr. cbn [Z.eqb].
    destruct (busy_wait_fields ticks_during wake_sweep
                (spin_loops TIMER_FREQ (loops_per_tick st) num denom) st)
      as (st' & E & _ & _ & Hg & Hlp & Hlv & Hs & Hb).
    exists st'. split; [exact E|]. split; [congruence|]. split; [exact Hlp|].
    right. eauto.
Qed.

(** X7: With interrupts on, [timer_msleep], [timer_usleep] and [timer_nsleep]
    return for every argument: their denominators 1000, 1000000 and
    1000000000 never trap the division and never fail
    ASSERT (denom % 1000 == 0).  Each call waits in exactly one way, one
    [thread_sleep] registration or one [busy_wait], and returns with
    interrupts on and [loops_per_tick] unchanged. *)
Theorem sleep_entry_points_return (x : Z) (st : state) :
  level st = INTR_ON ->
  (exists st',
     timer_msleep TIMER_FREQ ticks_during wake_sweep x st = Ok tt st' /\
     level st' = INTR_ON /\ loops_per_tick st' = loops_per_tick st /\
     one_wait st st') /\
  (exists st',
     timer_usleep TIMER_FREQ ticks_during wake_sweep x st = Ok tt st' /\
     level st' = INTR_ON /\ loops_per_tick st' = loops_per_tick st /\
     one_wait st st') /\
  (exists st',
     timer_nsleep TIMER_FREQ ticks_during wake_sweep x st = Ok tt st' /\
     level st' = INTR_ON /\ loops_per_tick st' = loops_per_tick st /\
     one_wait st st').
Proof.
  intros Hl. unfold timer_msleep, timer_usleep, timer_nsleep.
  splits; apply real_time_sleep_returns; try assumption; reflexivity.
Qed.

End EntryPoints.

Lemma sleep_entry_points_return_witness :
  exists st',
    timer_nsleep 100 spins_1600 sweep_due (-7) (set_level INTR_ON boot) = Ok tt st' /\
    level st' = INTR_ON.
Proof.
  destruct (sleep_entry_points_return 100 spins_1600 sweep_due (-7)
              (set_level INTR_ON boot) eq_refl)
    as (_ & _ & st' & E & Hl & _).
  exists st'. split; [exact E | exact Hl].
Defined.

(** ** Calibration as a whole *)

Section CalibrateOutcome.

Variable TIMER_FREQ : Z.
Variable ticks_during : Z -> nat.
Variable wake_sweep : Z -> list Z -> list Z.

Lemma calibrate_coarse_outcome m : forall fuel k st,
  (m < fuel)%nat -> 10 <= k <= 31 -> k + Z.of_nat m = 32 ->
  level st = INTR_ON -> loops_per_tick st = 2 ^ k ->
  (exists st',
     calibrate_coarse ticks_during wake_sweep fuel st = Halt AssertLoopsNonzero st' /\
     level st' = INTR_ON /\ global_tick st' = global_tick st /\
     sleep_calls (trace st') = sleep_calls (trace st) /\
     forall j, k <= j <= 31 -> too_long ticks_during (doubled j) = false) \/
  (exists k' st',
     k <= k' <= 31 /\
     calibrate_coarse ticks_during wake_sweep fuel st = Ok tt st' /\
     loops_per_tick st' = 2 ^ k' /\
     level st' = INTR_ON /\ global_tick st' = global_tick st /\
     sleep_calls (trace st') = sleep_calls (trace st) /\
     too_long ticks_during (doubled k') = true /\
     forall j, k <= j < k' -> too_long ticks_during (doubled j) = false).
Proof.
  induction m as [|m IH]; intros fuel k st Hf Hk Hm Hl Hlpt; [lia|].
  destruct fuel as [|fuel]; [lia|]. cbn [calibrate_coarse].
  rewrite bind_get, Hlpt. fold (doubled k).
  destruct (too_many_loops_fields ticks_during wake_sweep (doubled k) st Hl)
    as (st1 & H1 & Hlp1 & Hlv1 & Hg1 & Hs1 & _).
  rewrite (bind_Ok _ _ _ _ _ H1).
  destruct (too_long ticks_during (doubled k)) eqn:Hlong.
  - right. exists k, st1. splits; auto; try lia; try congruence.
  - rewrite bind_modify, bind_get. cbn [loops_per_tick set_loops_per_tick].
    rewrite bind_ASSERT, Hlp1, Hlpt. fold (doubled k).
    assert (Hdk : doubled k = if k =? 31 then 0 else 2 ^ (k + 1))
      by (apply shiftl_pow2_u32; lia).
    rewrite Hdk.
    destruct (Z.eqb_spec k 31) as [->|Hne].
    + left. cbn [Z.eqb negb]. eexists. split; [reflexivity|].
      cbn [level global_tick trace set_loops_per_tick].
      splits; auto. intros j Hj. now replace j with 31 by lia.
    + assert (Hnz : (2 ^ (k + 1) =? 0) = false).
      { apply Z.eqb_neq. pose proof (Z.pow_pos_nonneg 2 (k + 1)). lia. }
      rewrite Hnz. cbn [negb].
      destruct (IH fuel (k + 1) (set_loops_per_tick (2 ^ (k + 1)) st1))
        as [(st' & E & Hlv' & Hg' & Hs' & Hshort)
           | (k' & st' & Hk' & E & Hlp' & Hlv' & Hg' & Hs' & Hlong' & Hshort)];
        try lia; try assumption; try reflexivity.
      * left. exists st'. cbn [global_tick trace set_loops_per_tick] in *.
        splits; auto; try congruence.
        intros j Hj. destruct (Z.eq_dec j k) as [->|]; [exact Hlong|].
        apply Hshort. lia.
      * right. exists k', st'. cbn [global_tick trace set_loops_per_tick] in *.
        splits; auto; try lia; try congruence.
        intros j Hj. destruct (Z.eq_dec j k) as [->|]; [exact Hlong|].
        apply Hshort. lia.
Qed.

Lemma timer_calibrate_outcome st :
  level st = INTR_ON ->
  (exists st',
     timer_calibrate TIMER_FREQ ticks_during wake_sweep st
       = Halt AssertLoopsNonzero st' /\
     level st' = INTR_ON /\ global_tick st' = global_tick st /\
     sleep_calls (trace st') = sleep_calls (trace st) /\
     forall j, 10 <= j <= 31 -> too_long ticks_during (doubled j) = false) \/
  (exists k st',
     10 <= k <= 31 /\
     timer_calibrate TIMER_FREQ ticks_during wake_sweep st = Ok tt st' /\
     first_too_long ticks_during k /\
     loops_per_tick st' = refine_acc ticks_during (2 ^ k) (2 ^ k) (test_bits (2 ^ k)) /\
     level st' = INTR_ON /\ global_tick st' = global_tick st /\
     sleep_calls (trace st') = sleep_calls (trace st)).
Proof.
  intros Hl. unfold timer_calibrate, intr_get_level.
  rewrite bind_get, Hl, bind_ASSERT. cbn [intr_level_eqb].
  rewrite !bind_modify. change (Z.shiftl 1 10) with (2 ^ 10).
  set (st0 := set_loops_per_tick (2 ^ 10) (emit (EvPrintf []) st)).
  assert (Hs0 : sleep_calls (trace st0) = sleep_calls (trace st)).
  { unfold st0. cbn. rewrite sleep_calls_app. cbn. apply app_nil_r. }
  assert (Hg0 : global_tick st0 = global_tick st) by reflexivity.
  destruct (calibrate_coarse_outcome 22 calibrate_fuel 10 st0)
    as [(st1 & H1 & Hlv1 & Hg1 & Hs1 & Hshort)
       | (k & st1 & Hk & H1 & Hlp1 & Hlv1 & Hg1 & Hs1 & Hlong & Hshort)];
    try reflexivity; try lia; try exact Hl.
  { unfold calibrate_fuel. lia. }
  - left. exists st1. unfold bind at 1. rewrite H1.
    splits; auto; try congruence.
  - right.
    destruct (calibrate_refine_loop ticks_during wake_sweep (2 ^ k) 9 calibrate_fuel
                (Z.shiftr (2 ^ k) 1) st1)
      as (st2 & H2 & Hlp2 & _ & Hlv2 & Hg2 & Hs2); try assumption.
    { unfold calibrate_fuel. lia. }
    { rewrite shiftr_pow2 by lia. apply stops_after_pow2; lia. }
    eexists k, _. split; [lia|]. split.
    + rewrite (bind_Ok _ _ _ _ _ H1), bind_get, Hlp1.
      rewrite (bind_Ok _ _ _ _ _ H2), bind_get. reflexivity.
    + cbn [loops_per_tick level global_tick trace emit].
      rewrite sleep_calls_app. cbn [sleep_calls]. rewrite app_nil_r.
      split; [split; [exact Hlong | exact Hshort]|].
      rewrite Hlp1 in Hlp2. splits; try assumption; congruence.
Qed.

Lemma first_too_long_unique k1 k2 :
  10 <= k1 -> 10 <= k2 ->
  first_too_long ticks_during k1 -> first_too_long ticks_during k2 -> k1 = k2.
Proof.
  intros H1 H2 [L1 S1] [L2 S2].
  destruct (Z.lt_trichotomy k1 k2) as [Hlt|[E|Hgt]]; [|exact E|].
  - rewrite (S2 k1) in L1 by lia. discriminate.
  - rewrite (S1 k2) in L2 by lia. discriminate.
Qed.

Lemma refine_acc_bounds k :
  10 <= k ->
  2 ^ k <= refine_acc ticks_during (2 ^ k) (2 ^ k) (test_bits (2 ^ k)) < 2 ^ (k + 1) /\
  refine_acc ticks_during (2 ^ k) (2 ^ k) (test_bits (2 ^ k)) mod 2 = 0.
Proof.
  intros Hk. split.
  - apply top_bit_bounds; try lia.
    + apply refine_acc_nonneg; [apply Z.pow_nonneg; lia|].
      rewrite test_bits_pow2 by lia. cbn [In]. intros b Hb.
      repeat destruct Hb as [<-|Hb]; try contradiction; apply Z.pow_nonneg; lia.
    + rewrite refined_bits by lia. now rewrite Z.eqb_refl.
    + intros i Hi. rewrite refined_bits by lia.
      destruct (Z.eqb_spec i k); [lia|].
      destruct (Z.ltb_spec i k); [lia|]. now rewrite andb_false_r.
  - apply (low_bits_clear _ 1); [lia|].
    intros i Hi. rewrite refined_bits by lia.
    destruct (Z.eqb_spec i k); [lia|].
    destruct (Z.leb_spec (k - 9) i); [lia|]. reflexivity.
Qed.

End CalibrateOutcome.

Section CalibrateResult.

Variable TIMER_FREQ : Z.
Variable ticks_during : Z -> nat.
Variable wake_sweep : Z -> list Z -> list Z.

Abbreviation calibrate := (timer_calibrate TIMER_FREQ ticks_during wake_sweep).

(** X8: [timer_calibrate], entered with interrupts on, ends in one of two ways
    that the speed of the machine decides.  If no doubled count
    2^11, ..., 2^31, 2^32 (which an [unsigned] holds as 0) outlasts a tick,
    it halts on ASSERT (loops_per_tick != 0).  If one does, it returns with
    an even [loops_per_tick] in [1024, 2^32).  Either way it ends with
    interrupts on, the watermark unchanged and no sleep registered. *)
Theorem timer_calibrate_returns_or_overflows (st : state) :
  level st = INTR_ON ->
  ((forall j, 10 <= j <= 31 -> too_long ticks_during (doubled j) = false) ->
   exists st',
     calibrate st = Halt AssertLoopsNonzero st' /\
     level st' = INTR_ON /\ global_tick st' = global_tick st /\
     sleep_calls (trace st') = sleep_calls (trace st)) /\
  (forall k, 10 <= k <= 31 -> too_long ticks_during (doubled k) = true ->
   exists st',
     calibrate st = Ok tt st' /\
     1024 <= loops_per_tick st' < 2 ^ 32 /\
     loops_per_tick st' mod 2 = 0 /\
     level st' = INTR_ON /\ global_tick st' = global_tick st /\
     sleep_calls (trace st') = sleep_calls (trace st)).
Proof.
  intros Hl.
  destruct (timer_calibrate_outcome TIMER_FREQ ticks_during wake_sweep st Hl)
    as [(st' & E & Hlv & Hg & Hs & Hshort)
       | (k' & st' & Hk' & E & [Hlong _] & Hlp & Hlv & Hg & Hs)].
  - split.
    + intros _. exists st'. auto.
    + intros k Hk Hlong. rewrite (Hshort k Hk) in Hlong. discriminate.
  - split.
    + intros Hshort. rewrite (Hshort k' Hk') in Hlong. discriminate.
    + intros _ _ _. exists st'. split; [exact E|].
      destruct (refine_acc_bounds ticks_during k' ltac:(lia)) as [Hb Heven].
      rewrite <- Hlp in Hb, Heven.
      assert (H10 : 2 ^ 10 <= 2 ^ k') by (apply Z.pow_le_mono_r; lia).
      assert (H32 : 2 ^ (k' + 1) <= 2 ^ 32) by (apply Z.pow_le_mono_r; lia).
      change (2 ^ 10) with 1024 in H10.
      split; [lia|]. auto.
Qed.

(** X9: The calibrated value depends on the speed of the machine only: if
    [timer_calibrate] returns from one state with interrupts on, it
    returns from every such state with the same [loops_per_tick]; in
    particular calibrating again right after gives the same value. *)
Theorem timer_calibrate_repeatable (st1 st1' st2 : state) :
  level st1 = INTR_ON -> level st2 = INTR_ON ->
  calibrate st1 = Ok tt st1' ->
  (exists st2',
     calibrate st2 = Ok tt st2' /\ loops_per_tick st2' = loops_per_tick st1') /\
  (exists st3,
     calibrate st1' = Ok tt st3 /\ loops_per_tick st3 = loops_per_tick st1').
Proof.
  intros Hl1 Hl2 E1.
  destruct (timer_calibrate_outcome TIMER_FREQ ticks_during wake_sweep st1 Hl1)
    as [(s & E & _) | (k1 & s & Hk1 & E & F1 & Hlp1 & Hlv1 & _)];
    rewrite E1 in E; [discriminate|]. injection E as <-.
  assert (Hany : forall st, level st = INTR_ON ->
            exists st', calibrate st = Ok tt st' /\
                        loops_per_tick st' = loops_per_tick st1').
  { intros st Hl.
    destruct (timer_calibrate_outcome TIMER_FREQ ticks_during wake_sweep st Hl)
      as [(s & _ & _ & _ & _ & Hshort) | (k2 & s & Hk2 & E & F2 & Hlp2 & _)].
    - destruct F1 as [Hlong _]. rewrite (Hshort k1 Hk1) in Hlong. discriminate.
    - exists s. split; [exact E|].
      rewrite Hlp1, Hlp2.
      now rewrite (first_too_long_unique ticks_during k1 k2) by (lia || assumption). }
  split; apply Hany; assumption.
Qed.

End CalibrateResult.

Lemma timer_calibrate_returns_or_overflows_witness :
  (exists st',
     timer_calibrate 100 (fun _ => O) sweep_due (set_level INTR_ON boot)
       = Halt AssertLoopsNonzero st') /\
  (exists st',
     timer_calibrate 100 spins_1600 sweep_due (set_level INTR_ON boot) = Ok tt st' /\
     1024 <= loops_per_tick st' < 2 ^ 32).
Proof.
  split.
  - destruct (timer_calibrate_returns_or_overflows 100 (fun _ => O) sweep_due
                (set_level INTR_ON boot) eq_refl) as [H _].
    destruct H as (st' & E & _); [reflexivity|]. exists st'. exact E.
  - destruct (timer_calibrate_returns_or_overflows 100 spins_1600 sweep_due
                (set_level INTR_ON boot) eq_refl) as [_ H].
    destruct (H 10) as (st' & E & Hb & _); [lia | reflexivity|].
    exists st'. split; [exact E | exact Hb].
Defined.

Lemma timer_calibrate_repeatable_witness :
  exists st1' st3,
    timer_calibrate 100 spins_1600 sweep_due (set_level INTR_ON boot) = Ok tt st1' /\
    timer_calibrate 100 spins_1600 sweep_due st1' = Ok tt st3 /\
    loops_per_tick st3 = loops_per_tick st1'.
Proof.
  eexists.
  match goal with
  | |- exists st3, ?c = Ok tt ?s /\ _ =>
      assert (E1 : c = Ok tt s) by (vm_compute; reflexivity)
  end.
  destruct (timer_calibrate_repeatable 100 spins_1600 sweep_due
              (set_level INTR_ON boot) _ (set_level INTR_ON boot)
              eq_refl eq_refl E1)
    as (_ & st3 & E3 & Hlp).
  exists st3. split; [exact E1|]. split; [exact E3 | exact Hlp].
Defined.

(** ** What the operations leave alone *)

Create HintDb timer_frame.

Lemma preserves_modify_gen (Q : state -> Prop) (f : state -> state) :
  (forall st, Q st -> Q (f st)) -> preserves Q (modify f).
Proof. intros Hf st H. simpl. auto. Qed.

Section Frame.

Variable TIMER_FREQ : Z.
Variable ticks_during : Z -> nat.
Variable wake_sweep : Z -> list Z -> list Z.

(** A property of the state that logging does not affect and that the
    three routines masking interrupts re-establish. *)
Variable Q : state -> Prop.
Hypothesis Q_emit : forall e st, Q st -> Q (emit e st).
Hypothesis Q_interrupt : preserves Q (intr_deliver wake_sweep).
Hypothesis Q_ticks : preserves Q timer_ticks.
Hypothesis Q_sleep : forall t, preserves Q (timer_sleep t).

(** Used by the operations that write [loops_per_tick] resp. the level. *)
Hypothesis Q_lpt : forall v st, Q st -> Q (set_loops_per_tick v st).
Hypothesis Q_level : forall l st, Q st -> Q (set_level l st).

#[local] Hint Resolve preserves_ret preserves_get preserves_ASSERT preserves_idiv
  preserves_Hang preserves_OutOfFuel Q_interrupt Q_ticks Q_sleep : timer_frame.

Ltac frame :=
  repeat first
    [ progress intros
    | solve [auto with timer_frame]
    | apply preserves_bind
    | apply preserves_modify_gen; intros; solve [auto using Q_emit]
    | match goal with
      | |- preserves _ (match ?x with _ => _ end) => destruct x
      end ].

Lemma frame_intr_deliver_n n : preserves Q (intr_deliver_n wake_sweep n).
Proof. induction n; cbn [intr_deliver_n]; frame. Qed.

#[local] Hint Resolve frame_intr_deliver_n : timer_frame.

Lemma frame_busy_wait loops :
  preserves Q (busy_wait ticks_during wake_sweep loops).
Proof. unfold busy_wait, intr_get_level. frame. Qed.

#[local] Hint Resolve frame_busy_wait : timer_frame.

Lemma frame_too_many_loops loops :
  preserves Q (too_many_loops ticks_during wake_sweep loops).
Proof. unfold too_many_loops, intr_get_level. frame. Qed.

#[local] Hint Resolve frame_too_many_loops : timer_frame.

Lemma frame_real_time_sleep num denom :
  preserves Q (real_time_sleep TIMER_FREQ ticks_during wake_sweep num denom).
Proof. unfold real_time_sleep, spin_count, intr_get_level. frame. Qed.

#[local] Hint Resolve frame_real_time_sleep : timer_frame.

Lemma frame_calibrate_coarse fuel :
  preserves Q (calibrate_coarse ticks_during wake_sweep fuel).
Proof.
  induction fuel; cbn [calibrate_coarse]; frame.
Qed.

Lemma frame_calibrate_refine fuel : forall h b,
  preserves Q (calibrate_refine ticks_during wake_sweep fuel h b).
Proof.
  induction fuel; cbn [calibrate_refine]; intros h b; frame.
Qed.

Lemma frame_timer_calibrate :
  preserves Q (timer_calibrate TIMER_FREQ ticks_during wake_sweep).
Proof.
  unfold timer_calibrate, intr_get_level.
  pose proof frame_calibrate_coarse. pose proof frame_calibrate_refine.
  frame.
Qed.

(** Every operation but [timer_calibrate]. *)
Lemma frame_exec_but_calibrate o :
  is_calibrate o = false ->
  preserves Q (exec TIMER_FREQ ticks_during wake_sweep o).
Proof.
  destruct o; cbn [exec is_calibrate]; intros Ho; try discriminate;
    unfold timer_init, hw_interrupt, intr_get_level, intr_set_level,
      timer_elapsed, timer_print_stats, timer_msleep, timer_usleep, timer_nsleep;
    frame.
Qed.

(** Every operation but the two that set the level on purpose. *)
Lemma frame_exec_but_set_level o :
  sets_level o = false ->
  preserves Q (exec TIMER_FREQ ticks_during wake_sweep o).
Proof.
  pose proof frame_timer_calibrate.
  destruct o; cbn [exec sets_level]; intros Ho; try discriminate;
    unfold timer_init, hw_interrupt, intr_get_level,
      timer_elapsed, timer_print_stats, timer_msleep, timer_usleep, timer_nsleep;
    frame.
Qed.

Lemma frame_run_but_calibrate ops :
  forallb (fun o => negb (is_calibrate o)) ops = true ->
  preserves Q (run TIMER_FREQ ticks_during wake_sweep ops).
Proof.
  induction ops as [|o ops IH]; cbn [run forallb]; intros H; [frame|].
  apply andb_true_iff in H as [Ho Hops]. apply negb_true_iff in Ho.
  apply preserves_bind; [now apply frame_exec_but_calibrate | auto].
Qed.

Lemma frame_run_but_set_level ops :
  forallb (fun o => negb (sets_level o)) ops = true ->
  preserves Q (run TIMER_FREQ ticks_during wake_sweep ops).
Proof.
  induction ops as [|o ops IH]; cbn [run forallb]; intros H; [frame|].
  apply andb_true_iff in H as [Ho Hops]. apply negb_true_iff in Ho.
  apply preserves_bind; [now apply frame_exec_but_set_level | auto].
Qed.

End Frame.

Section FrameFacts.

Variable TIMER_FREQ : Z.
Variable ticks_during : Z -> nat.
Variable wake_sweep : Z -> list Z -> list Z.

(** X10: Only [timer_calibrate] writes [loops_per_tick]: a sequence of timer
    operations and interrupts without a calibration, from any state and
    however it ends, leaves it as it was. *)
Theorem loops_per_tick_set_by_calibrate_only (ops : list op) (st : state) :
  forallb (fun o => negb (is_calibrate o)) ops = true ->
  okish (fun st' => loops_per_tick st' = loops_per_tick st)
        (run TIMER_FREQ ticks_during wake_sweep ops st).
Proof.
  intros Hops.
  apply (frame_run_but_calibrate TIMER_FREQ ticks_during wake_sweep
           (fun s => loops_per_tick s = loops_per_tick st)); auto.
  - intros s H.
    destruct (intr_deliver_fields wake_sweep s) as (s' & -> & _ & _ & Hl & _).
    simpl. congruence.
  - intros s H. rewrite timer_ticks_eq. exact H.
  - intros t s H. rewrite timer_sleep_eq. exact H.
Qed.

(** X11: Every routine of the timer puts the interrupt level back: a sequence
    of timer operations and interrupts in which nobody else enables or
    disables interrupts ends, returning or halting, at the level it
    started with. *)
Theorem interrupt_level_restored (ops : list op) (st : state) :
  forallb (fun o => negb (sets_level o)) ops = true ->
  okish (fun st' => level st' = level st)
        (run TIMER_FREQ ticks_during wake_sweep ops st).
Proof.
  intros Hops.
  apply (frame_run_but_set_level TIMER_FREQ ticks_during wake_sweep
           (fun s => level s = level st)); auto.
  - intros s H.
    destruct (intr_deliver_fields wake_sweep s) as (s' & -> & _ & _ & _ & Hl & _).
    simpl. congruence.
  - intros s H. rewrite timer_ticks_eq. exact H.
  - intros t s H. rewrite timer_sleep_eq. exact H.
Qed.



End FrameFacts.

Lemma loops_per_tick_set_by_calibrate_only_witness :
  exists st',
    run 100 spins_1600 sweep_due [OpInterrupt; OpSleep 3; OpUsleep 500; OpTicks]
      (set_level INTR_ON (set_loops_per_tick 2046 boot)) = Ok tt st' /\
    loops_per_tick st' = 2046.
Proof.
  eexists. split; [vm_compute; reflexivity|].
  exact (loops_per_tick_set_by_calibrate_only 100 spins_1600 sweep_due
           [OpInterrupt; OpSleep 3; OpUsleep 500; OpTicks]
           (set_level INTR_ON (set_loops_per_tick 2046 boot)) eq_refl).
Defined.

Lemma interrupt_level_restored_witness :
  exists st',
    run 100 spins_1600 sweep_due
      [OpInit; OpCalibrate; OpInterrupt; OpSleep 3; OpMsleep 20; OpElapsed 0]
      (set_level INTR_ON boot) = Ok tt st' /\
    level st' = INTR_ON.
Proof.
  eexists. split; [vm_compute; reflexivity|].
  exact (interrupt_level_restored 100 spins_1600 sweep_due
           [OpInit; OpCalibrate; OpInterrupt; OpSleep 3; OpMsleep 20; OpElapsed 0]
           (set_level INTR_ON boot) eq_refl).
Defined.
